(** * The FunctionClarity set-up wizard: prompts, validation and key generation

    A shallow embedding of [cmd/function-clarity/cli/aws/init.go] and of the
    earlier self-contained collector of [pkg/init], with the properties the
    specification states about them.

    Go strings are modelled by the sequence of their Unicode code points
    (text that is valid UTF-8); the functions of Go's [strings] package that
    the wizard calls are modelled on that representation from their
    documentation. *)

From Stdlib Require Import String Ascii.
From Stdlib Require Import List Arith NArith Bool Lia Permutation.
Import ListNotations.

Set Implicit Arguments.

(** ** Strings *)

Abbreviation rune := N (only parsing).
Abbreviation gostring := (list N) (only parsing).

(** An ASCII literal of the source, as a Go string. *)
Definition lit (s : string) : gostring :=
  map N_of_ascii (list_ascii_of_string s).

(** The one-character string of a line feed, Go's ["\n"]. *)
Definition LF : gostring := [10%N].

Fixpoint streq (a b : gostring) : bool :=
  match a, b with
  | [], [] => true
  | x :: a', y :: b' => N.eqb x y && streq a' b'
  | _, _ => false
  end.

Module unicode.

(** [unicode.IsSpace]: the code points with Unicode's White_Space
    property. *)
Definition IsSpace (r : rune) : bool :=
  ((9 <=? r) && (r <=? 13) || (r =? 32) || (r =? 133) || (r =? 160)
   || (r =? 5760) || (8192 <=? r) && (r <=? 8202)
   || (r =? 8232) || (r =? 8233) || (r =? 8239) || (r =? 8287)
   || (r =? 12288))%N.

(** [unicode.ToLower], on the code points whose lower case is an ASCII
    letter: the letters A to Z, U+0130 (capital I with dot, to [i]) and
    U+212A (Kelvin sign, to [k]).  The remainder of Unicode's case table
    sends code points above U+007F to code points above U+007F; it is
    left out, which changes no comparison of a lowered string with an
    ASCII literal, the only use the wizard makes of it. *)
Definition ToLower (r : rune) : rune :=
  (if (65 <=? r) && (r <=? 90) then r + 32
   else if r =? 304 then 105
   else if r =? 8490 then 107
   else r)%N.

End unicode.

Module strings.

Fixpoint HasPrefix (s prefix : gostring) {struct prefix} : bool :=
  match prefix, s with
  | [], _ => true
  | p :: prefix', c :: s' => N.eqb c p && HasPrefix s' prefix'
  | _ :: _, [] => false
  end.

Definition HasSuffix (s suffix : gostring) : bool :=
  HasPrefix (rev s) (rev suffix).

(** [strings.TrimSuffix]: [s] without the trailing [suffix], or [s]
    itself when it does not end with it. *)
Definition TrimSuffix (s suffix : gostring) : gostring :=
  if HasSuffix s suffix
  then firstn (length s - length suffix) s
  else s.

Fixpoint TrimLeftSpace (s : gostring) : gostring :=
  match s with
  | [] => []
  | r :: s' => if unicode.IsSpace r then TrimLeftSpace s' else s
  end.

Definition TrimRightSpace (s : gostring) : gostring :=
  rev (TrimLeftSpace (rev s)).

(** [strings.TrimSpace]: all leading and trailing white space removed,
    as defined by Unicode. *)
Definition TrimSpace (s : gostring) : gostring :=
  TrimRightSpace (TrimLeftSpace s).

(** [strings.ToLower]: every code point mapped to its lower case. *)
Definition ToLower (s : gostring) : gostring :=
  map unicode.ToLower s.

(** [strings.Contains]. *)
Fixpoint Contains (s substr : gostring) : bool :=
  HasPrefix s substr ||
  match s with
  | [] => false
  | _ :: s' => Contains s' substr
  end.

(** The scan of [strings.Split] for a non-empty separator: [cur] holds
    the piece under construction, reversed, and [skip] the number of
    characters of a separator occurrence still to pass over.  Occurrences
    are taken leftmost first and do not overlap. *)
Fixpoint splitFrom (sep : gostring) (skip : nat) (cur s : gostring)
  : list gostring :=
  match s with
  | [] => [rev cur]
  | r :: s' =>
      match skip with
      | S k => splitFrom sep k cur s'
      | O =>
          if HasPrefix s sep
          then rev cur :: splitFrom sep (length sep - 1) [] s'
          else splitFrom sep 0 (r :: cur) s'
      end
  end.

(** [strings.Split]: the substrings of [s] between the occurrences of
    [sep]; a string without an occurrence of a non-empty separator, the
    empty string included, yields the one-element slice of itself; an
    empty separator splits after each character. *)
Definition Split (s sep : gostring) : list gostring :=
  match sep with
  | [] => map (fun r => [r]) s
  | _ :: _ => splitFrom sep 0 [] s
  end.

End strings.

(** ** Errors *)

(** A Go [error] value: one built by [fmt.Errorf] with a constant message,
    or one handed over by a callee outside the repository (the buffered
    reader, the key generator), identified by its text. *)
Inductive error : Type :=
| Errorf (msg : gostring)
| Foreign (msg : gostring).

Definition io_EOF : error := Foreign (lit "EOF").

(** The error kinds of the specification, read off the error values the
    code builds. *)
Definition MissingParameterError (e : error) : Prop :=
  e = Errorf (lit "this is a compulsory parameter").

Definition ValidationError (e : error) : Prop :=
  exists msg, e = Errorf msg
              /\ strings.HasPrefix msg (lit "validation error: ") = true.

(** ** The configuration record *)

Record CloudTrail : Type := mkCloudTrail { Name : gostring }.

(** The record of [pkg/init].  Its declaration at hand has the fields
    [AccessKey] to [IsKeyless] below.

    Modelled from the spec: the fields [IncludedFuncTagKeys],
    [IncludedFuncRegions] and [SnsTopicArn], which [cli/aws/init.go] reads
    and writes and whose declaration belongs to a later revision of the
    record; the two lists are ordered sequences of text, the topic is
    text. *)
Record AWSInput : Type := mkAWSInput {
  AccessKey : gostring;
  SecretKey : gostring;
  Region : gostring;
  Bucket : gostring;
  Action : gostring;
  PublicKey : gostring;
  PrivateKey : gostring;
  CloudTrail_ : CloudTrail;
  IsKeyless : bool;
  IncludedFuncTagKeys : list gostring;
  IncludedFuncRegions : list gostring;
  SnsTopicArn : gostring
}.

(** A pointer to a field of the record: what is read through it and what
    an assignment through it does to the record. *)
Record ptr (T : Type) : Type := mkPtr {
  load : AWSInput -> T;
  store : T -> AWSInput -> AWSInput
}.

Definition addr_AccessKey : ptr gostring :=
  mkPtr AccessKey (fun v i =>
    mkAWSInput v (SecretKey i) (Region i) (Bucket i) (Action i) (PublicKey i)
      (PrivateKey i) (CloudTrail_ i) (IsKeyless i) (IncludedFuncTagKeys i)
      (IncludedFuncRegions i) (SnsTopicArn i)).

Definition addr_SecretKey : ptr gostring :=
  mkPtr SecretKey (fun v i =>
    mkAWSInput (AccessKey i) v (Region i) (Bucket i) (Action i) (PublicKey i)
      (PrivateKey i) (CloudTrail_ i) (IsKeyless i) (IncludedFuncTagKeys i)
      (IncludedFuncRegions i) (SnsTopicArn i)).

Definition addr_Region : ptr gostring :=
  mkPtr Region (fun v i =>
    mkAWSInput (AccessKey i) (SecretKey i) v (Bucket i) (Action i)
      (PublicKey i) (PrivateKey i) (CloudTrail_ i) (IsKeyless i)
      (IncludedFuncTagKeys i) (IncludedFuncRegions i) (SnsTopicArn i)).

Definition addr_Bucket : ptr gostring :=
  mkPtr Bucket (fun v i =>
    mkAWSInput (AccessKey i) (SecretKey i) (Region i) v (Action i)
      (PublicKey i) (PrivateKey i) (CloudTrail_ i) (IsKeyless i)
      (IncludedFuncTagKeys i) (IncludedFuncRegions i) (SnsTopicArn i)).

Definition addr_Action : ptr gostring :=
  mkPtr Action (fun v i =>
    mkAWSInput (AccessKey i) (SecretKey i) (Region i) (Bucket i) v
      (PublicKey i) (PrivateKey i) (CloudTrail_ i) (IsKeyless i)
      (IncludedFuncTagKeys i) (IncludedFuncRegions i) (SnsTopicArn i)).

Definition addr_PublicKey : ptr gostring :=
  mkPtr PublicKey (fun v i =>
    mkAWSInput (AccessKey i) (SecretKey i) (Region i) (Bucket i) (Action i)
      v (PrivateKey i) (CloudTrail_ i) (IsKeyless i)
      (IncludedFuncTagKeys i) (IncludedFuncRegions i) (SnsTopicArn i)).

Definition addr_PrivateKey : ptr gostring :=
  mkPtr PrivateKey (fun v i =>
    mkAWSInput (AccessKey i) (SecretKey i) (Region i) (Bucket i) (Action i)
      (PublicKey i) v (CloudTrail_ i) (IsKeyless i)
      (IncludedFuncTagKeys i) (IncludedFuncRegions i) (SnsTopicArn i)).

Definition addr_CloudTrail_Name : ptr gostring :=
  mkPtr (fun i => Name (CloudTrail_ i)) (fun v i =>
    mkAWSInput (AccessKey i) (SecretKey i) (Region i) (Bucket i) (Action i)
      (PublicKey i) (PrivateKey i) (mkCloudTrail v) (IsKeyless i)
      (IncludedFuncTagKeys i) (IncludedFuncRegions i) (SnsTopicArn i)).

Definition addr_IsKeyless : ptr bool :=
  mkPtr IsKeyless (fun v i =>
    mkAWSInput (AccessKey i) (SecretKey i) (Region i) (Bucket i) (Action i)
      (PublicKey i) (PrivateKey i) (CloudTrail_ i) v
      (IncludedFuncTagKeys i) (IncludedFuncRegions i) (SnsTopicArn i)).

Definition addr_IncludedFuncTagKeys : ptr (list gostring) :=
  mkPtr IncludedFuncTagKeys (fun v i =>
    mkAWSInput (AccessKey i) (SecretKey i) (Region i) (Bucket i) (Action i)
      (PublicKey i) (PrivateKey i) (CloudTrail_ i) (IsKeyless i)
      v (IncludedFuncRegions i) (SnsTopicArn i)).

Definition addr_IncludedFuncRegions : ptr (list gostring) :=
  mkPtr IncludedFuncRegions (fun v i =>
    mkAWSInput (AccessKey i) (SecretKey i) (Region i) (Bucket i) (Action i)
      (PublicKey i) (PrivateKey i) (CloudTrail_ i) (IsKeyless i)
      (IncludedFuncTagKeys i) v (SnsTopicArn i)).

Definition addr_SnsTopicArn : ptr gostring :=
  mkPtr SnsTopicArn (fun v i =>
    mkAWSInput (AccessKey i) (SecretKey i) (Region i) (Bucket i) (Action i)
      (PublicKey i) (PrivateKey i) (CloudTrail_ i) (IsKeyless i)
      (IncludedFuncTagKeys i) (IncludedFuncRegions i) v).

(** ** The world outside the program *)

(** Modelled from the spec: the client of [pkg/clients], which the wizard
    builds with [clients.NewAwsClientInit] from the access key, the secret
    key and the region, and hands to the queries below. *)
Record AwsClient : Type := mkAwsClient {
  accessKey : gostring;
  secretKey : gostring;
  region : gostring
}.

(** Modelled from the spec: the four queries of [pkg/clients] (the
    validation gateway), synchronous read-only queries against the account
    that return a boolean; what they answer is a parameter of the model.
    With them, the outcome of cosign's key-pair generation, an opaque call
    that reports success or failure ([None] is Go's [nil]). *)
Record Env : Type := mkEnv {
  validateCredentials : AwsClient -> bool;
  bucketExists : AwsClient -> gostring -> bool;
  snsTopicExists : AwsClient -> gostring -> bool;
  cloudTrailExists : AwsClient -> gostring -> bool;
  generateKeyPair : option error
}.

(** What a run does that can be observed from outside, in order. *)
Inductive Event : Type :=
| Printed (msg : gostring)
| AskedCredentials (c : AwsClient) (answer : bool)
| AskedBucket (name : gostring) (answer : bool)
| AskedSnsTopic (arn : gostring) (answer : bool)
| AskedCloudTrail (name : gostring) (answer : bool)
| GeneratedKeyPair (outcome : option error).

(** [stdin] holds what the successive calls of [ReadString('\n')], each on
    a fresh reader over the standard input, will return: the text read,
    delimiter included, and the reader's error.  [trace] is the history of
    events, oldest first. *)
Record World : Type := mkWorld {
  stdin : list (gostring * option error);
  trace : list Event
}.

(** The record [i] that every function of the wizard receives by pointer,
    and the world. *)
Record State : Type := mkState {
  cfg : AWSInput;
  world : World
}.

(** A complete line typed by the operator, and a read that fails after
    delivering [partial]. *)
Definition line (s : gostring) : gostring * option error := (s ++ LF, None).
Definition broken (partial : gostring) (e : error) : gostring * option error :=
  (partial, Some e).

(** ** Statements that may return an error *)

Inductive result (A : Type) : Type :=
| Ok (a : A)
| Err (e : error).
Arguments Err {A} e.

(** A Go function body over the record and the world: it ends with a value
    ([Ok]) or by returning a non-nil error ([Err]), and the mutations done
    before the return stay. *)
Definition M (A : Type) : Type := State -> result A * State.

Definition ret {A : Type} (a : A) : M A := fun s => (Ok a, s).

Definition fail {A : Type} (e : error) : M A := fun s => (Err e, s).

(** [if err := m; err != nil { return err }] followed by [f]. *)
Definition bind {A B : Type} (m : M A) (f : A -> M B) : M B :=
  fun s =>
    match m s with
    | (Ok a, s') => f a s'
    | (Err e, s') => (Err e, s')
    end.

(** [return err] for an [err] that may be [nil]. *)
Definition return_ (err : option error) : M unit :=
  match err with
  | None => ret tt
  | Some e => fail e
  end.

Declare Scope go_scope.
Delimit Scope go_scope with go.
Notation "x <- m ;; k" := (bind m (fun x => k))
  (at level 100, m at next level, right associativity) : go_scope.
Notation "' pat <- m ;; k" :=
  (bind m (fun x => match x with pat => k end))
  (at level 100, pat pattern, m at next level, right associativity) : go_scope.
Notation "m ;; k" := (bind m (fun _ => k))
  (at level 100, right associativity) : go_scope.
Open Scope go_scope.

Definition emit (ev : Event) : M unit :=
  fun s =>
    (Ok tt,
     mkState (cfg s) (mkWorld (stdin (world s)) (trace (world s) ++ [ev]))).

(** [*p = v] *)
Definition assign {T : Type} (p : ptr T) (v : T) : M unit :=
  fun s => (Ok tt, mkState (store p v (cfg s)) (world s)).

(** [*p] *)
Definition deref {T : Type} (p : ptr T) : M T :=
  fun s => (Ok (load p (cfg s)), s).

(** [a && b] where evaluating [b] has effects: [b] runs only if [a]
    holds. *)
Definition andThen (a : bool) (b : M bool) : M bool :=
  if a then b else ret false.

(** [for _, x := range l { body }] *)
Fixpoint for_ {A : Type} (l : list A) (body : A -> M unit) : M unit :=
  match l with
  | [] => ret tt
  | x :: l' => body x ;; for_ l' body
  end.

(** [l[index] = v] on a slice, for an index within its length. *)
Fixpoint update (l : list gostring) (index : nat) (v : gostring)
  : list gostring :=
  match l, index with
  | [], _ => []
  | _ :: l', O => v :: l'
  | x :: l', S k => x :: update l' k v
  end.

Module fmt.
Definition Print (msg : gostring) : M unit := emit (Printed msg).
End fmt.

(** [bufio.NewReader(os.Stdin).ReadString('\n')]: the next read of the
    standard input; a standard input with nothing left gives no text and
    [io.EOF]. *)
Definition ReadString : M (gostring * option error) :=
  fun s =>
    match stdin (world s) with
    | [] => (Ok ([], Some io_EOF), s)
    | r :: rest => (Ok r, mkState (cfg s) (mkWorld rest (trace (world s))))
    end.

Module clients.
Section WithEnv.
Variable env : Env.

Definition NewAwsClientInit (ak sk rg : gostring) : AwsClient :=
  mkAwsClient ak sk rg.

Definition ValidateCredentials (c : AwsClient) : M bool :=
  let b := validateCredentials env c in
  emit (AskedCredentials c b) ;; ret b.

Definition IsBucketExist (c : AwsClient) (name : gostring) : M bool :=
  let b := bucketExists env c name in
  emit (AskedBucket name b) ;; ret b.

Definition IsSnsTopicExist (c : AwsClient) (arn : gostring) : M bool :=
  let b := snsTopicExists env c arn in
  emit (AskedSnsTopic arn b) ;; ret b.

Definition IsCloudTrailExist (c : AwsClient) (name : gostring) : M bool :=
  let b := cloudTrailExists env c name in
  emit (AskedCloudTrail name b) ;; ret b.

End WithEnv.
End clients.

Module generate.
(** [generate.GenerateKeyPairCmd]: an opaque call that writes the two key
    files and reports success or failure. *)
Definition GenerateKeyPairCmd (env : Env) : M unit :=
  emit (GeneratedKeyPair (generateKeyPair env)) ;;
  return_ (generateKeyPair env).
End generate.

(** The number of key-pair generations in a history. *)
Definition generations (evs : list Event) : nat :=
  List.length
    (filter (fun ev => match ev with GeneratedKeyPair _ => true | _ => false end)
       evs).

(** The prompts printed in a history, in order. *)
Definition prompts (evs : list Event) : list gostring :=
  flat_map (fun ev => match ev with Printed msg => [msg] | _ => [] end) evs.

(** ** [cmd/function-clarity/cli/aws/init.go] *)

Module cli_aws.
Section WithEnv.
Variable env : Env.

Definition inputStringParameter (q : gostring) (p : ptr gostring) (em : bool)
  : M unit :=
  fmt.Print q ;;
  '(input, err) <- ReadString ;;
  let input := strings.TrimSuffix input LF in
  if negb em && streq input []
  then fail (Errorf (lit "this is a compulsory parameter"))
  else
    assign p (strings.TrimSuffix input LF) ;;
    return_ err.

Definition inputStringArrayParameter
  (q : gostring) (p : ptr (list gostring)) (em : bool) : M unit :=
  fmt.Print q ;;
  '(input, err) <- ReadString ;;
  let input := strings.TrimSuffix input LF in
  let input := strings.TrimSpace input in
  if negb em && streq input []
  then fail (Errorf (lit "this is a compulsory parameter"))
  else
    assign p (strings.Split input (lit ",")) ;;
    v <- deref p ;;
    for_ (seq 0 (length v)) (fun index =>
      v <- deref p ;;
      assign p (update v index (strings.TrimSpace (nth index v [])))) ;;
    return_ err.

Definition inputYesNoParameter (q : gostring) (p : ptr bool) (em : bool)
  : M unit :=
  fmt.Print q ;;
  '(input, err) <- ReadString ;;
  let input := strings.TrimSuffix input LF in
  if negb em && streq input []
  then fail (Errorf (lit "this is a compulsory parameter"))
  else
    let input := strings.ToLower (strings.TrimSpace input) in
    (if streq input (lit "y") then assign p true
     else if streq input (lit "n") then assign p false
     else ret tt) ;;
    return_ err.

(** The map [m] is given by its entries in the order [range] visits them;
    Go leaves that order open.  It shows in the text of the prompt only:
    the keys of a map are distinct, so at most one entry matches the
    input. *)
Definition inputMultipleChoiceParameter
  (action : gostring) (p : ptr gostring) (m : list (gostring * gostring))
  (em : bool) : M unit :=
  let message := lit "select " ++ action ++ lit " : " in
  let message :=
    fold_left (fun message '(key, element) =>
                 message ++ lit "(" ++ key ++ lit ")" ++ lit " for "
                         ++ element ++ lit "; ") m message in
  let message :=
    if em
    then message ++ lit "leave empty for no " ++ action ++ lit " to perform: "
    else message in
  fmt.Print message ;;
  '(input, err) <- ReadString ;;
  match err with
  | Some e => fail e
  | None =>
      let input := strings.TrimSuffix input LF in
      if negb em && streq input []
      then fail (Errorf (lit "this is a compulsory parameter"))
      else
        for_ m (fun '(key, element) =>
          if streq input key then assign p element else ret tt) ;;
        if streq input []
        then
          if negb em
          then fail (Errorf (lit "this is a compulsory parameter"))
          else assign p []
        else ret tt
  end.

Definition inputKeyPair : M unit :=
  inputStringParameter
    (lit "enter path to custom public key for code signing? (if you want us to generate key pair, please press enter): ")
    addr_PublicKey true ;;
  publicKey <- deref addr_PublicKey ;;
  if negb (streq publicKey [])
  then
    inputStringParameter
      (lit "enter path to custom private key for code signing: ")
      addr_PrivateKey false
  else ret tt.

Definition receiveAndValidateCredentials : M AwsClient :=
  inputStringParameter (lit "enter Access Key: ") addr_AccessKey false ;;
  inputStringParameter (lit "enter Secret Key: ") addr_SecretKey false ;;
  inputStringParameter (lit "enter region: ") addr_Region false ;;
  ak <- deref addr_AccessKey ;;
  sk <- deref addr_SecretKey ;;
  rg <- deref addr_Region ;;
  let awsClient := clients.NewAwsClientInit ak sk rg in
  credentials <- clients.ValidateCredentials env awsClient ;;
  if negb credentials
  then fail (Errorf (lit "validation error: credentials aren't valid"))
  else ret awsClient.

Definition receiveAndValidateBucketName (awsClient : AwsClient) : M unit :=
  inputStringParameter
    (lit "enter default bucket (you can leave empty and a bucket with name functionclarity will be created): ")
    addr_Bucket true ;;
  bucket <- deref addr_Bucket ;;
  c <- andThen (negb (streq bucket []))
         (b <- clients.IsBucketExist env awsClient bucket ;; ret (negb b)) ;;
  if c
  then fail (Errorf (lit "validation error: bucket doesn't exist or you don't have permissions"))
  else ret tt.

Definition receiveAndValidateSNSTopicArn (awsClient : AwsClient) : M unit :=
  inputStringParameter
    (lit "enter SNS arn if you would like to be notified when signature verification fails, otherwise press enter: ")
    addr_SnsTopicArn true ;;
  arn <- deref addr_SnsTopicArn ;;
  c <- andThen (negb (streq arn []))
         (b <- clients.IsSnsTopicExist env awsClient arn ;; ret (negb b)) ;;
  if c
  then fail (Errorf (lit "validation error: SNS topic doesn't exist or you don't have permissions"))
  else ret tt.

Definition receiveAndValidateCloudTrail (awsClient : AwsClient) : M unit :=
  inputStringParameter
    (lit "is there existing trail in CloudTrail (in the region selected above) which you would like to use? (if no, please press enter): ")
    addr_CloudTrail_Name true ;;
  trailName <- deref addr_CloudTrail_Name ;;
  c <- andThen (negb (streq trailName []))
         (b <- clients.IsCloudTrailExist env awsClient trailName ;;
          ret (negb b)) ;;
  if c
  then fail (Errorf (lit "validation error: SNS topic doesn't exist or you don't have permissions"))
  else ret tt.

Definition digestParameters : M unit :=
  publicKey <- deref addr_PublicKey ;;
  isKeyless <- deref addr_IsKeyless ;;
  if streq publicKey [] && negb isKeyless
  then
    generate.GenerateKeyPairCmd env ;;
    assign addr_PublicKey (lit "cosign.pub") ;;
    assign addr_PrivateKey (lit "cosign.key")
  else ret tt.

Definition ReceiveParameters : M unit :=
  awsClient <- receiveAndValidateCredentials ;;
  receiveAndValidateBucketName awsClient ;;
  inputStringArrayParameter
    (lit "enter tag keys of functions to include in the verification (leave empty to include all): ")
    addr_IncludedFuncTagKeys true ;;
  inputStringArrayParameter
    (lit "enter the function regions to include in the verification, i.e: us-east-1,us-west-1 (leave empty to include all): ")
    addr_IncludedFuncRegions true ;;
  inputMultipleChoiceParameter (lit "post verification action") addr_Action
    [(lit "1", lit "detect"); (lit "2", lit "block")] true ;;
  receiveAndValidateSNSTopicArn awsClient ;;
  receiveAndValidateCloudTrail awsClient ;;
  inputYesNoParameter (lit "do you want to work in keyless mode (y/n): ")
    addr_IsKeyless false ;;
  isKeyless <- deref addr_IsKeyless ;;
  (if negb isKeyless then inputKeyPair else ret tt) ;;
  digestParameters.

End WithEnv.
End cli_aws.

(** ** [pkg/init]: the earlier collector, methods of the record itself *)

Module pkg_init.
Section WithEnv.
Variable env : Env.

Definition inputStringParameter (q : gostring) (p : ptr gostring) (em : bool)
  : M unit :=
  fmt.Print q ;;
  '(input, err) <- ReadString ;;
  let input := strings.TrimSuffix input LF in
  if negb em && streq input []
  then fail (Errorf (lit "this is a compulsory parameter"))
  else
    assign p (strings.TrimSuffix input LF) ;;
    return_ err.

Definition inputYesNoParameter (q : gostring) (p : ptr bool) (em : bool)
  : M unit :=
  fmt.Print q ;;
  '(input, err) <- ReadString ;;
  let input := strings.TrimSuffix input LF in
  if negb em && streq input []
  then fail (Errorf (lit "this is a compulsory parameter"))
  else
    let input := strings.ToLower (strings.TrimSpace input) in
    (if streq input (lit "y") then assign p true
     else if streq input (lit "n") then assign p false
     else ret tt) ;;
    return_ err.

Definition inputKeyPair : M unit :=
  inputStringParameter
    (lit "enter path to custom public key for code signing? (if you want us to generate key pair, please press enter): ")
    addr_PublicKey true ;;
  publicKey <- deref addr_PublicKey ;;
  if negb (streq publicKey [])
  then
    inputStringParameter
      (lit "enter path to custom private key for code signing: ")
      addr_PrivateKey false
  else ret tt.

Definition digestParameters : M unit :=
  publicKey <- deref addr_PublicKey ;;
  isKeyless <- deref addr_IsKeyless ;;
  if streq publicKey [] && Bool.eqb isKeyless false
  then
    generate.GenerateKeyPairCmd env ;;
    assign addr_PublicKey (lit "cosign.pub") ;;
    assign addr_PrivateKey (lit "cosign.key")
  else ret tt.

Definition ReceiveParameters : M unit :=
  inputStringParameter (lit "enter Access Key: ") addr_AccessKey false ;;
  inputStringParameter (lit "enter Secret Key: ") addr_SecretKey false ;;
  inputStringParameter (lit "enter region: ") addr_Region false ;;
  inputStringParameter (lit "enter default bucket: ") addr_Bucket true ;;
  inputStringParameter
    (lit "select post verification action: (1) for detect; (2) for block and detect; leave empty for no action to perform")
    addr_Action true ;;
  inputStringParameter
    (lit "is there existing trail in CloudTrail which you would like to use? (if no, please press enter): ")
    addr_CloudTrail_Name true ;;
  inputYesNoParameter (lit "do you want to work in keyless mode: ")
    addr_IsKeyless false ;;
  isKeyless <- deref addr_IsKeyless ;;
  (if negb isKeyless then inputKeyPair else ret tt) ;;
  digestParameters.

End WithEnv.
End pkg_init.

(** ** Vocabulary of the statements *)

Definition emptyInput : AWSInput :=
  mkAWSInput [] [] [] [] [] [] [] (mkCloudTrail []) false [] [] [].

Definition start (i : AWSInput) (reads : list (gostring * option error))
  : State :=
  mkState i (mkWorld reads []).

(** A cloud account in which everything asked for exists, and a key
    generator that succeeds. *)
Definition allGood : Env :=
  mkEnv (fun _ => true) (fun _ _ => true) (fun _ _ => true) (fun _ _ => true)
    None.

(** The events of a run from [s] to [s']: what [s'] has recorded beyond
    the history of [s]. *)
Definition since (s s' : State) : list Event :=
  skipn (length (trace (world s))) (trace (world s')).

(** White space at the ends of a string. *)
Definition noLeadingSpace (s : gostring) : Prop :=
  match s with
  | [] => True
  | r :: _ => unicode.IsSpace r = false
  end.

Definition noTrailingSpace (s : gostring) : Prop :=
  noLeadingSpace (rev s).

(** A pointer whose assignments are read back and overwrite one another:
    every field address of the record is one. *)
Definition lawful {T : Type} (p : ptr T) : Prop :=
  (forall v i, load p (store p v i) = v)
  /\ (forall v w i, store p v (store p w i) = store p v i).

(** What the next [ReadString] returns in [s]. *)
Definition nextRead (s : State) : gostring * option error :=
  match stdin (world s) with
  | [] => ([], Some io_EOF)
  | r :: _ => r
  end.

(** The state that follows [s] once the prompt [q] is printed and its
    answer read, the record being [i]. *)
Definition answered (q : gostring) (i : AWSInput) (s : State) : State :=
  mkState i (mkWorld (tl (stdin (world s))) (trace (world s) ++ [Printed q])).

(** The state that follows [s] once [ev] has happened, the record being
    [i]. *)
Definition after (ev : Event) (i : AWSInput) (s : State) : State :=
  mkState i (mkWorld (stdin (world s)) (trace (world s) ++ [ev])).

(** What [return err] hands to the caller. *)
Definition outcome (err : option error) : result unit :=
  match err with
  | None => Ok tt
  | Some e => Err e
  end.

Definition compulsory : error :=
  Errorf (lit "this is a compulsory parameter").

(** [s'] continues the history of [s] with events that all satisfy [P]. *)
Definition extends (P : Event -> Prop) (s s' : State) : Prop :=
  exists evs, trace (world s') = trace (world s) ++ evs /\ Forall P evs.

(** Whatever [m] does, it only adds events that satisfy [P]. *)
Definition emits {A : Type} (P : Event -> Prop) (m : M A) : Prop :=
  forall s r s', m s = (r, s') -> extends P s s'.

Definition notCredentials (ev : Event) : Prop :=
  match ev with
  | AskedCredentials _ _ => False
  | _ => True
  end.

Definition notGeneration (ev : Event) : Prop :=
  match ev with
  | GeneratedKeyPair _ => False
  | _ => True
  end.

(** The fields of the record that come after [Region] in the order of the
    prompts are the same in [i] and [i']. *)
Definition sameAfterRegion (i i' : AWSInput) : Prop :=
  Bucket i' = Bucket i
  /\ IncludedFuncTagKeys i' = IncludedFuncTagKeys i
  /\ IncludedFuncRegions i' = IncludedFuncRegions i
  /\ Action i' = Action i
  /\ SnsTopicArn i' = SnsTopicArn i
  /\ CloudTrail_ i' = CloudTrail_ i
  /\ IsKeyless i' = IsKeyless i
  /\ PublicKey i' = PublicKey i
  /\ PrivateKey i' = PrivateKey i.

(** The record once the entries of a choice map have been scanned for
    [input]. *)
Definition chosen (p : ptr gostring) (input : gostring)
  (m : list (gostring * gostring)) (i : AWSInput) : AWSInput :=
  fold_left
    (fun i '(key, element) => if streq input key then store p element i else i)
    m i.

(** A run that ended with a missing-parameter error and the record [i]. *)
Definition rejected (i : AWSInput) (run : result unit * State) : Prop :=
  exists e, fst run = Err e /\ MissingParameterError e /\ cfg (snd run) = i.

(** A run that ended with a missing-parameter error and left [field] as it
    was in [i]. *)
Definition rejectedKeeping {T : Type} (field : AWSInput -> T) (i : AWSInput)
  (run : result unit * State) : Prop :=
  exists e,
    fst run = Err e /\ MissingParameterError e
    /\ field (cfg (snd run)) = field i.

(** The state in which the operator's next answers are [reads]. *)
Definition facing (i : AWSInput) (reads : list (gostring * option error))
  (tr : list Event) : State :=
  mkState i (mkWorld reads tr).

(** A cloud account that refuses every credential. *)
Definition badCredentials : Env :=
  mkEnv (fun _ => false) (fun _ _ => true) (fun _ _ => true)
    (fun _ _ => true) None.

(** A cloud account that knows no audit trail. *)
Definition noTrail : Env :=
  mkEnv (fun _ => true) (fun _ _ => true) (fun _ _ => true)
    (fun _ _ => false) None.

(** The finalization [digest] ended the run from [s] to [s']: it ran on
    the state [mid] that the prompts had reached without generating any
    key pair; if then the record was not keyless and had no public key,
    the run generated exactly one key pair and [s'] has the two default
    file names; otherwise it generated none and [s'] is [mid]. *)
Definition finalizedBy (digest : M unit) (s s' : State) : Prop :=
  exists mid,
    digest mid = (Ok tt, s')
    /\ generations (since s mid) = 0
    /\ (IsKeyless (cfg mid) = false -> PublicKey (cfg mid) = [] ->
        generations (since s s') = 1
        /\ PublicKey (cfg s') = lit "cosign.pub"
        /\ PrivateKey (cfg s') = lit "cosign.key")
    /\ (IsKeyless (cfg mid) = true \/ PublicKey (cfg mid) <> [] ->
        generations (since s s') = 0 /\ s' = mid).

(** ** Vocabulary of the further properties *)

(** A read as [ReadString] delivers it: text that ends with the line feed
    and has no other, or, when the read failed, text without line feed. *)
Definition wellRead (r : gostring * option error) : Prop :=
  match r with
  | (d, None) => exists l, d = l ++ LF /\ ~ In 10%N l
  | (d, Some _) => ~ In 10%N d
  end.

(** [f] reads a part of the record that assignments through [p] leave
    alone. *)
Definition apart {T U : Type} (f : AWSInput -> U) (p : ptr T) : Prop :=
  forall v i, f (store p v i) = f i.

(** Whatever [m] does, the part [f] of the record is the same after it. *)
Definition keeps {T A : Type} (f : AWSInput -> T) (m : M A) : Prop :=
  forall s r s', m s = (r, s') -> f (cfg s') = f (cfg s).

(** Whatever [m] does, it prints an initial segment of the prompts [l], in
    order, and has read one answer for each prompt printed; when [strict],
    a run that returns no error has printed all of [l]. *)
Definition dialogue {A : Type} (strict : bool) (l : list gostring) (m : M A)
  : Prop :=
  forall s r s', m s = (r, s') ->
    exists evs,
      trace (world s') = trace (world s) ++ evs
      /\ stdin (world s') = skipn (length (prompts evs)) (stdin (world s))
      /\ (exists k, prompts evs = firstn k l)
      /\ (strict = true -> forall a, r = Ok a -> prompts evs = l).

Definition existenceQuery (ev : Event) : Prop :=
  match ev with
  | AskedBucket _ _ | AskedSnsTopic _ _ | AskedCloudTrail _ _ => True
  | _ => False
  end.

Definition promptOrGeneration (ev : Event) : Prop :=
  match ev with
  | Printed _ | GeneratedKeyPair _ => True
  | _ => False
  end.

(** The errors the reader can hand over while [reads] are pending: those
    of the reads, and the end of the input. *)
Definition readErrors (reads : list (gostring * option error)) : list error :=
  io_EOF
  :: flat_map (fun r => match snd r with Some e => [e] | None => [] end)
       reads.

(** The errors the wizard builds itself, and the key generator's. *)
Definition ownError (env : Env) (e : error) : Prop :=
  e = compulsory \/ ValidationError e \/ generateKeyPair env = Some e.

(** Whatever [m] does, it only moves forward in the pending reads, and an
    error it returns is one of its own or one of the reader's. *)
Definition raises {A : Type} (env : Env) (m : M A) : Prop :=
  forall s r s', m s = (r, s') ->
    (exists n, stdin (world s') = skipn n (stdin (world s)))
    /\ (forall e, r = Err e ->
          ownError env e \/ In e (readErrors (stdin (world s)))).

(** The twelve prompts of the wizard of [cli/aws], the text of the choice
    prompt, which depends on the order in which the map is visited, being
    [choice]. *)
Definition wizardPrompts (choice : gostring) : list gostring :=
  [lit "enter Access Key: "; lit "enter Secret Key: "; lit "enter region: ";
   lit "enter default bucket (you can leave empty and a bucket with name functionclarity will be created): ";
   lit "enter tag keys of functions to include in the verification (leave empty to include all): ";
   lit "enter the function regions to include in the verification, i.e: us-east-1,us-west-1 (leave empty to include all): ";
   choice;
   lit "enter SNS arn if you would like to be notified when signature verification fails, otherwise press enter: ";
   lit "is there existing trail in CloudTrail (in the region selected above) which you would like to use? (if no, please press enter): ";
   lit "do you want to work in keyless mode (y/n): ";
   lit "enter path to custom public key for code signing? (if you want us to generate key pair, please press enter): ";
   lit "enter path to custom private key for code signing: "].

(** The nine prompts of the earlier wizard of [pkg/init]. *)
Definition earlierPrompts : list gostring :=
  [lit "enter Access Key: "; lit "enter Secret Key: "; lit "enter region: ";
   lit "enter default bucket: ";
   lit "select post verification action: (1) for detect; (2) for block and detect; leave empty for no action to perform";
   lit "is there existing trail in CloudTrail which you would like to use? (if no, please press enter): ";
   lit "do you want to work in keyless mode: ";
   lit "enter path to custom public key for code signing? (if you want us to generate key pair, please press enter): ";
   lit "enter path to custom private key for code signing: "].

(** A key generator that fails. *)
Definition noKeys : Env :=
  mkEnv (fun _ => true) (fun _ _ => true) (fun _ _ => true) (fun _ _ => true)
    (Some (Foreign (lit "no entropy"))).

(** A cloud account that knows no bucket. *)
Definition noBucket : Env :=
  mkEnv (fun _ => true) (fun _ _ => false) (fun _ _ => true)
    (fun _ _ => true) None.

(** From [s] to [s'] no key pair was generated and the two key paths of
    the record were not assigned. *)
Definition keysUntouched (s s' : State) : Prop :=
  extends notGeneration s s'
  /\ PublicKey (cfg s') = PublicKey (cfg s)
  /\ PrivateKey (cfg s') = PrivateKey (cfg s).

(** The text of the choice prompt for [action] over the entries [m], as
    [inputMultipleChoiceParameter] builds it. *)
Definition choiceText (action : gostring) (m : list (gostring * gostring))
  (em : bool) : gostring :=
  let message := lit "select " ++ action ++ lit " : " in
  let message :=
    fold_left (fun message '(key, element) =>
                 message ++ lit "(" ++ key ++ lit ")" ++ lit " for "
                         ++ element ++ lit "; ") m message in
  if em
  then message ++ lit "leave empty for no " ++ action ++ lit " to perform: "
  else message.

(** * Properties *)

(** ** Strings *)

Lemma streq_eq (a b : gostring) : streq a b = true <-> a = b.
Proof.
  revert b; induction a as [|x a IH]; intros [|y b]; simpl;
    try (split; (reflexivity || discriminate)).
  rewrite andb_true_iff, N.eqb_eq, IH.
  split; [intros [-> ->]; reflexivity | intros H; inversion H; auto].
Qed.

Lemma streq_neq (a b : gostring) : a <> b -> streq a b = false.
Proof.
  intros H; destruct (streq a b) eqn:E; [|reflexivity].
  apply streq_eq in E; contradiction.
Qed.

Example Split_commas :
  strings.Split (lit "a,,b,") (lit ",") = [lit "a"; []; lit "b"; []].
Proof. reflexivity. Qed.

Example Split_no_separator :
  strings.Split (lit "us-east-1") (lit ",") = [lit "us-east-1"].
Proof. reflexivity. Qed.

Example Split_empty_string : strings.Split [] (lit ",") = [[]].
Proof. reflexivity. Qed.

Example Split_long_separator :
  strings.Split (lit "a--b---c") (lit "--") = [lit "a"; lit "b"; lit "-c"].
Proof. reflexivity. Qed.

Example TrimSpace_both_ends :
  strings.TrimSpace (32 :: 9 :: lit "a b" ++ [160; 13; 10])%N = lit "a b".
Proof. reflexivity. Qed.

Example ToLower_ascii : strings.ToLower (lit "YeS 1") = lit "yes 1".
Proof. reflexivity. Qed.

Example TrimSuffix_once :
  strings.TrimSuffix (lit "key" ++ LF ++ LF) LF = lit "key" ++ LF.
Proof. reflexivity. Qed.

Example TrimSuffix_absent : strings.TrimSuffix (lit "key") LF = lit "key".
Proof. reflexivity. Qed.

Lemma TrimSuffix_line (s : gostring) : strings.TrimSuffix (s ++ LF) LF = s.
Proof.
  unfold strings.TrimSuffix, strings.HasSuffix, LF.
  rewrite rev_app_distr; simpl.
  rewrite length_app; simpl.
  replace (length s + 1 - 1) with (length s + 0) by lia.
  rewrite firstn_app_2; simpl; apply app_nil_r.
Qed.

Lemma TrimSuffix_no_LF (s : gostring) :
  ~ In 10%N s -> strings.TrimSuffix s LF = s.
Proof.
  intros H; unfold strings.TrimSuffix, strings.HasSuffix, LF.
  destruct (rev s) as [|c t] eqn:E; [reflexivity|]; simpl.
  destruct (N.eqb_spec c 10) as [->|Hc]; [|reflexivity].
  exfalso; apply H, in_rev; rewrite E; left; reflexivity.
Qed.

Lemma TrimLeftSpace_noLeading (s : gostring) :
  noLeadingSpace (strings.TrimLeftSpace s).
Proof.
  induction s as [|r s IH]; simpl; [exact I|].
  destruct (unicode.IsSpace r) eqn:E; [exact IH | exact E].
Qed.

(** Trimming on the left keeps a suffix. *)
Lemma TrimLeftSpace_suffix (s : gostring) :
  exists pre, s = pre ++ strings.TrimLeftSpace s.
Proof.
  induction s as [|r s [pre IH]]; simpl; [exists []; reflexivity|].
  destruct (unicode.IsSpace r).
  - exists (r :: pre); simpl; f_equal; exact IH.
  - exists []; reflexivity.
Qed.

(** Trimming on the right keeps a prefix. *)
Lemma TrimRightSpace_prefix (s : gostring) :
  exists post, s = strings.TrimRightSpace s ++ post.
Proof.
  unfold strings.TrimRightSpace.
  destruct (TrimLeftSpace_suffix (rev s)) as [pre H].
  exists (rev pre).
  rewrite <- rev_app_distr, <- H, rev_involutive; reflexivity.
Qed.

Lemma TrimSpace_noLeading (s : gostring) :
  noLeadingSpace (strings.TrimSpace s).
Proof.
  unfold strings.TrimSpace.
  pose proof (TrimLeftSpace_noLeading s) as H.
  destruct (TrimRightSpace_prefix (strings.TrimLeftSpace s)) as [post E].
  destruct (strings.TrimRightSpace (strings.TrimLeftSpace s)) as [|r t];
    [exact I|].
  rewrite E in H; exact H.
Qed.

Lemma TrimSpace_noTrailing (s : gostring) :
  noTrailingSpace (strings.TrimSpace s).
Proof.
  unfold noTrailingSpace, strings.TrimSpace, strings.TrimRightSpace.
  rewrite rev_involutive; apply TrimLeftSpace_noLeading.
Qed.

(** A string of white space only is trimmed to nothing. *)
Lemma TrimSpace_blank (s : gostring) :
  Forall (fun r => unicode.IsSpace r = true) s -> strings.TrimSpace s = [].
Proof.
  intros H.
  assert (E : strings.TrimLeftSpace s = []).
  { induction H as [|r s Hr _ IH]; simpl; [reflexivity|].
    rewrite Hr; exact IH. }
  unfold strings.TrimSpace; rewrite E; reflexivity.
Qed.

(** Writing at the index that follows a prefix replaces the element
    there. *)
Lemma update_app (pre l : list gostring) (v : gostring) :
  update (pre ++ l) (length pre) v =
  pre ++ match l with [] => [] | _ :: l' => v :: l' end.
Proof.
  induction pre as [|x pre IH]; simpl.
  - destruct l; reflexivity.
  - rewrite IH; reflexivity.
Qed.

(** ** Sequencing *)

Lemma bind_Ok {A B : Type} (m : M A) (f : A -> M B) s b s' :
  bind m f s = (Ok b, s') ->
  exists a s1, m s = (Ok a, s1) /\ f a s1 = (Ok b, s').
Proof.
  unfold bind; destruct (m s) as [[a|e] s1]; intros H.
  - exists a, s1; split; [reflexivity | exact H].
  - discriminate.
Qed.

Lemma extends_same_trace P s s' :
  trace (world s') = trace (world s) -> extends P s s'.
Proof.
  intros H; exists []; split; [rewrite app_nil_r; exact H | constructor].
Qed.

Lemma extends_refl P s : extends P s s.
Proof. apply extends_same_trace; reflexivity. Qed.

Lemma extends_trans P s1 s2 s3 :
  extends P s1 s2 -> extends P s2 s3 -> extends P s1 s3.
Proof.
  intros [e1 [H1 F1]] [e2 [H2 F2]]; exists (e1 ++ e2); split.
  - rewrite H2, H1, app_assoc; reflexivity.
  - apply Forall_app; split; assumption.
Qed.

Lemma extends_since P s s' : extends P s s' -> Forall P (since s s').
Proof.
  intros [evs [H F]]; unfold since; rewrite H.
  rewrite skipn_app, skipn_all, Nat.sub_diag; simpl; exact F.
Qed.

Lemma since_app s s' evs :
  trace (world s') = trace (world s) ++ evs -> since s s' = evs.
Proof.
  intros H; unfold since; rewrite H.
  rewrite skipn_app, skipn_all, Nat.sub_diag; reflexivity.
Qed.

Lemma emits_ret {A : Type} P (a : A) : emits P (ret a).
Proof. intros s r s' H; inversion H; apply extends_refl. Qed.

Lemma emits_fail {A : Type} P e : emits P (@fail A e).
Proof. intros s r s' H; inversion H; apply extends_refl. Qed.

Lemma emits_bind {A B : Type} P (m : M A) (f : A -> M B) :
  emits P m -> (forall a, emits P (f a)) -> emits P (bind m f).
Proof.
  intros Hm Hf s r s'; unfold bind.
  destruct (m s) as [[a|e] s1] eqn:E; intros H.
  - eapply extends_trans; [eapply Hm, E | eapply Hf, H].
  - inversion H; subst; eapply Hm, E.
Qed.

Lemma emits_emit P ev : P ev -> emits P (emit ev).
Proof.
  intros Hev s r s' H; inversion H; exists [ev]; simpl.
  split; [reflexivity | constructor; [exact Hev | constructor]].
Qed.

Lemma emits_assign {T : Type} P (p : ptr T) v : emits P (assign p v).
Proof.
  intros s r s' H; inversion H; apply extends_same_trace; reflexivity.
Qed.

Lemma emits_deref {T : Type} P (p : ptr T) : emits P (deref p).
Proof. intros s r s' H; inversion H; apply extends_refl. Qed.

Lemma emits_ReadString P : emits P ReadString.
Proof.
  intros s r s'; unfold ReadString.
  destruct (stdin (world s)); intros H; inversion H;
    apply extends_same_trace; reflexivity.
Qed.

Lemma emits_return_ P err : emits P (return_ err).
Proof. destruct err; [apply emits_fail | apply emits_ret]. Qed.

Lemma emits_for_ {A : Type} P (l : list A) body :
  (forall x, emits P (body x)) -> emits P (for_ l body).
Proof.
  intros Hb; induction l as [|x l IH]; simpl.
  - apply emits_ret.
  - apply emits_bind; [apply Hb | intros _; exact IH].
Qed.

Lemma emits_Print P msg : P (Printed msg) -> emits P (fmt.Print msg).
Proof. apply emits_emit. Qed.

(** ** The prompts, as equations on the state *)

Ltac run_prompt :=
  unfold nextRead, answered, after, outcome, compulsory, bind, fmt.Print,
    emit, ReadString, assign, deref, return_, ret, fail;
  cbn [cfg world stdin trace fst snd tl].

Lemma inputStringParameter_run q p em s :
  cli_aws.inputStringParameter q p em s =
  let input := strings.TrimSuffix (fst (nextRead s)) LF in
  if negb em && streq input []
  then (Err compulsory, answered q (cfg s) s)
  else (outcome (snd (nextRead s)),
        answered q (store p (strings.TrimSuffix input LF) (cfg s)) s).
Proof.
  destruct s as [i [[|[d e] rest] tr]];
    unfold cli_aws.inputStringParameter; run_prompt;
    match goal with |- context [negb em && ?b] => destruct (negb em && b) end;
    try destruct e; reflexivity.
Qed.

Lemma inputYesNoParameter_run q p em s :
  cli_aws.inputYesNoParameter q p em s =
  let input := strings.TrimSuffix (fst (nextRead s)) LF in
  if negb em && streq input []
  then (Err compulsory, answered q (cfg s) s)
  else
    let input := strings.ToLower (strings.TrimSpace input) in
    (outcome (snd (nextRead s)),
     answered q
       (if streq input (lit "y") then store p true (cfg s)
        else if streq input (lit "n") then store p false (cfg s)
        else cfg s) s).
Proof.
  destruct s as [i [[|[d e] rest] tr]];
    unfold cli_aws.inputYesNoParameter; run_prompt;
    match goal with |- context [negb em && ?b] => destruct (negb em && b) end;
    try reflexivity;
    repeat match goal with
           | |- context [if streq ?a ?b then _ else _] => destruct (streq a b)
           end;
    try destruct e; reflexivity.
Qed.

(** The loop over the indices of the stored slice. *)
Lemma trim_loop (p : ptr (list gostring)) (Hp : lawful p) l pre i w :
  for_ (seq (length pre) (length l))
    (fun index =>
       v <- deref p ;;
       assign p (update v index (strings.TrimSpace (nth index v []))))
    (mkState (store p (pre ++ l) i) w) =
  (Ok tt, mkState (store p (pre ++ map strings.TrimSpace l) i) w).
Proof.
  destruct Hp as [Hload Hstore].
  revert pre; induction l as [|x l IH]; intros pre; simpl.
  - reflexivity.
  - unfold bind at 1; unfold bind at 1; unfold deref at 1; unfold assign at 1.
    cbn [cfg world].
    rewrite Hload, Hstore, update_app, app_nth2, Nat.sub_diag by lia.
    cbn [nth].
    replace (pre ++ strings.TrimSpace x :: l)
      with ((pre ++ [strings.TrimSpace x]) ++ l)
      by (rewrite <- app_assoc; reflexivity).
    replace (S (length pre)) with (length (pre ++ [strings.TrimSpace x]))
      by (rewrite length_app; simpl; lia).
    rewrite IH, <- app_assoc; reflexivity.
Qed.

Lemma inputStringArrayParameter_run q p em s :
  lawful p ->
  cli_aws.inputStringArrayParameter q p em s =
  let input :=
    strings.TrimSpace (strings.TrimSuffix (fst (nextRead s)) LF) in
  if negb em && streq input []
  then (Err compulsory, answered q (cfg s) s)
  else (outcome (snd (nextRead s)),
        answered q
          (store p (map strings.TrimSpace (strings.Split input (lit ",")))
             (cfg s)) s).
Proof.
  intros Hp.
  assert (loop := trim_loop Hp).
  destruct Hp as [Hload Hstore].
  unfold cli_aws.inputStringArrayParameter.
  unfold bind at 1; unfold fmt.Print, emit at 1.
  unfold bind at 1.
  cbv zeta.
  destruct (ReadString _) as [[[d e]|x] s1] eqn:E.
  2:{ unfold ReadString in E; cbn [world stdin trace cfg] in E.
      destruct (stdin (world s)); discriminate. }
  assert (Hd : (d, e) = nextRead s
               /\ s1 = mkState (cfg s)
                         (mkWorld (tl (stdin (world s)))
                            (trace (world s) ++ [Printed q]))).
  { unfold ReadString, nextRead in *; cbn [world stdin trace cfg] in E.
    destruct (stdin (world s)); inversion E; split; reflexivity. }
  destruct Hd as [Hd ->]; rewrite <- Hd; cbn [fst snd].
  unfold answered, compulsory.
  destruct (negb em && _); [reflexivity|].
  unfold bind at 1; unfold assign at 1; cbn [cfg world].
  unfold bind at 1; unfold deref at 1; cbn [cfg world].
  rewrite Hload.
  unfold bind at 1.
  match goal with
  | |- context [for_ (seq 0 (length ?X)) _ (mkState _ ?w)] =>
      pose proof (loop X [] (cfg s) w) as L; cbn [app length] in L;
      rewrite L
  end.
  destruct e; reflexivity.
Qed.

Lemma inputMultipleChoiceParameter_run action p m em :
  exists msg, forall s,
    cli_aws.inputMultipleChoiceParameter action p m em s =
    match snd (nextRead s) with
    | Some e => (Err e, answered msg (cfg s) s)
    | None =>
        let input := strings.TrimSuffix (fst (nextRead s)) LF in
        if negb em && streq input []
        then (Err compulsory, answered msg (cfg s) s)
        else
          let i' := chosen p input m (cfg s) in
          if streq input []
          then
            if negb em
            then (Err compulsory, answered msg i' s)
            else (Ok tt, answered msg (store p [] i') s)
          else (Ok tt, answered msg i' s)
    end.
Proof.
  unfold cli_aws.inputMultipleChoiceParameter; cbv zeta.
  match goal with |- context [fmt.Print ?x] => exists x; generalize x end.
  intros msg s.
  assert (scan : forall input i w,
             for_ m (fun '(key, element) =>
                       if streq input key then assign p element else ret tt)
               (mkState i w)
             = (Ok tt, mkState (chosen p input m i) w)).
  { intros input; unfold chosen; induction m as [|[k el] m' IH]; intros i w.
    - reflexivity.
    - simpl; unfold bind at 1.
      destruct (streq input k); unfold assign, ret; cbn [cfg world];
        apply IH. }
  destruct s as [i [[|[d e] rest] tr]]; run_prompt.
  - reflexivity.
  - destruct e as [e|]; [reflexivity|].
    destruct (negb em && _); [reflexivity|].
    rewrite scan.
    destruct (streq _ []); [destruct (negb em)|]; reflexivity.
Qed.

Lemma lawful_IncludedFuncTagKeys : lawful addr_IncludedFuncTagKeys.
Proof. split; intros; reflexivity. Qed.

Lemma lawful_IncludedFuncRegions : lawful addr_IncludedFuncRegions.
Proof. split; intros; reflexivity. Qed.

(** The helpers that [pkg/init] and [cli/aws] both declare are the same
    functions. *)
Lemma pkg_init_inputStringParameter :
  pkg_init.inputStringParameter = cli_aws.inputStringParameter.
Proof. reflexivity. Qed.

Lemma pkg_init_inputYesNoParameter :
  pkg_init.inputYesNoParameter = cli_aws.inputYesNoParameter.
Proof. reflexivity. Qed.

Lemma pkg_init_inputKeyPair : pkg_init.inputKeyPair = cli_aws.inputKeyPair.
Proof. reflexivity. Qed.

Lemma pkg_init_digestParameters env s :
  pkg_init.digestParameters env s = cli_aws.digestParameters env s.
Proof.
  unfold pkg_init.digestParameters, cli_aws.digestParameters, bind, deref.
  cbn [load addr_IsKeyless addr_PublicKey].
  destruct (IsKeyless (cfg s)); reflexivity.
Qed.

(** ** The list prompts *)

(** C1, as the code has it: on the empty line the optional list prompts
    return no error, and what they store is not the empty sequence but the
    sequence of one element, the empty string, which is what splitting the
    empty string on commas gives. *)
Theorem C1_empty_line_stores_one_empty_element
  (q : gostring) (i : AWSInput) (rest : list (gostring * option error))
  (tr : list Event) :
  let s := facing i (line [] :: rest) tr in
  let tags :=
    cli_aws.inputStringArrayParameter q addr_IncludedFuncTagKeys true s in
  let regions :=
    cli_aws.inputStringArrayParameter q addr_IncludedFuncRegions true s in
  fst tags = Ok tt
  /\ IncludedFuncTagKeys (cfg (snd tags)) = [[]]
  /\ length (IncludedFuncTagKeys (cfg (snd tags))) = 1
  /\ fst regions = Ok tt
  /\ IncludedFuncRegions (cfg (snd regions)) = [[]]
  /\ length (IncludedFuncRegions (cfg (snd regions))) = 1.
Proof.
  cbv zeta.
  rewrite (inputStringArrayParameter_run _ _ _ lawful_IncludedFuncTagKeys).
  rewrite (inputStringArrayParameter_run _ _ _ lawful_IncludedFuncRegions).
  unfold facing, nextRead, line; cbn [world stdin fst snd app].
  repeat split.
Qed.

(** C8: the line ["a, b ,c"] is stored by the optional list prompts as
    ["a"], ["b"], ["c"]; whatever was read, what they store is the trimmed
    line split on commas with every element trimmed, so that no stored
    element begins or ends with white space. *)
Theorem C8_list_prompt_splits_and_trims
  (q : gostring) (i : AWSInput) (rest : list (gostring * option error))
  (tr : list Event) :
  (let s := facing i (line (lit "a, b ,c") :: rest) tr in
   let tags :=
     cli_aws.inputStringArrayParameter q addr_IncludedFuncTagKeys true s in
   let regions :=
     cli_aws.inputStringArrayParameter q addr_IncludedFuncRegions true s in
   fst tags = Ok tt
   /\ IncludedFuncTagKeys (cfg (snd tags)) = [lit "a"; lit "b"; lit "c"]
   /\ fst regions = Ok tt
   /\ IncludedFuncRegions (cfg (snd regions)) = [lit "a"; lit "b"; lit "c"])
  /\ (forall (data : gostring) (err : option error),
        let s := facing i ((data, err) :: rest) tr in
        let tags :=
          cli_aws.inputStringArrayParameter q addr_IncludedFuncTagKeys true s in
        let regions :=
          cli_aws.inputStringArrayParameter q addr_IncludedFuncRegions true s in
        let pieces :=
          strings.Split (strings.TrimSpace (strings.TrimSuffix data LF))
            (lit ",") in
        IncludedFuncTagKeys (cfg (snd tags)) = map strings.TrimSpace pieces
        /\ IncludedFuncRegions (cfg (snd regions))
           = map strings.TrimSpace pieces
        /\ Forall (fun e => noLeadingSpace e /\ noTrailingSpace e)
             (IncludedFuncTagKeys (cfg (snd tags)))
        /\ Forall (fun e => noLeadingSpace e /\ noTrailingSpace e)
             (IncludedFuncRegions (cfg (snd regions)))).
Proof.
  assert (trimmed : forall l,
             Forall (fun e => noLeadingSpace e /\ noTrailingSpace e)
               (map strings.TrimSpace l)).
  { intros l; apply Forall_forall; intros e He.
    apply in_map_iff in He; destruct He as [x [<- _]].
    split; [apply TrimSpace_noLeading | apply TrimSpace_noTrailing]. }
  split.
  - cbv zeta.
    rewrite (inputStringArrayParameter_run _ _ _ lawful_IncludedFuncTagKeys).
    rewrite (inputStringArrayParameter_run _ _ _ lawful_IncludedFuncRegions).
    unfold facing, nextRead, line; cbn [world stdin fst snd].
    rewrite TrimSuffix_line.
    repeat split.
  - intros data err; cbv zeta.
    rewrite (inputStringArrayParameter_run _ _ _ lawful_IncludedFuncTagKeys).
    rewrite (inputStringArrayParameter_run _ _ _ lawful_IncludedFuncRegions).
    unfold facing, nextRead; cbn [world stdin fst snd negb andb].
    unfold answered; cbn [cfg snd].
    cbn [store addr_IncludedFuncTagKeys addr_IncludedFuncRegions
           IncludedFuncTagKeys IncludedFuncRegions].
    repeat split; apply trimmed.
Qed.

(** ** The yes/no prompt *)

(** A non-empty line is answered without error, and the field becomes true
    on y, false on n, whatever the case and the surrounding white space,
    and stays what it was on anything else. *)
Lemma inputYesNoParameter_line q p em i rest tr data :
  data <> [] ->
  let s := facing i (line data :: rest) tr in
  let t := strings.ToLower (strings.TrimSpace data) in
  cli_aws.inputYesNoParameter q p em s =
  (Ok tt,
   answered q
     (if streq t (lit "y") then store p true i
      else if streq t (lit "n") then store p false i
      else i) s).
Proof.
  intros Hd; cbv zeta.
  rewrite inputYesNoParameter_run.
  unfold facing, nextRead, line; cbn [world stdin fst snd cfg].
  rewrite TrimSuffix_line; cbv zeta.
  rewrite (streq_neq Hd), andb_false_r; reflexivity.
Qed.

(** C7: the yes/no prompt sets the field to true on ["Y"], to false on
    ["n"], and on ["maybe"], as on any other non-empty line that is neither
    y nor n once trimmed and lowered, leaves it as it was and returns no
    error. *)
Theorem C7_yes_no_prompt
  (q : gostring) (p : ptr bool) (em : bool) (i : AWSInput)
  (rest : list (gostring * option error)) (tr : list Event) :
  let s := fun data => facing i (line data :: rest) tr in
  let run := fun data => cli_aws.inputYesNoParameter q p em (s data) in
  let run' := fun data => pkg_init.inputYesNoParameter q p em (s data) in
  let t := fun data => strings.ToLower (strings.TrimSpace data) in
  run (lit "Y") = (Ok tt, answered q (store p true i) (s (lit "Y")))
  /\ run (lit "n") = (Ok tt, answered q (store p false i) (s (lit "n")))
  /\ run (lit "maybe") = (Ok tt, answered q i (s (lit "maybe")))
  /\ run (lit " y  ") = (Ok tt, answered q (store p true i) (s (lit " y  ")))
  /\ (forall data, data <> [] ->
        (t data = lit "y" ->
         run data = (Ok tt, answered q (store p true i) (s data)))
        /\ (t data = lit "n" ->
            run data = (Ok tt, answered q (store p false i) (s data)))
        /\ (t data <> lit "y" -> t data <> lit "n" ->
            run data = (Ok tt, answered q i (s data))))
  /\ (forall data, run' data = run data).
Proof.
  cbv zeta.
  assert (G : forall data, data <> [] ->
    (strings.ToLower (strings.TrimSpace data) = lit "y" ->
     cli_aws.inputYesNoParameter q p em (facing i (line data :: rest) tr)
     = (Ok tt, answered q (store p true i) (facing i (line data :: rest) tr)))
    /\ (strings.ToLower (strings.TrimSpace data) = lit "n" ->
        cli_aws.inputYesNoParameter q p em (facing i (line data :: rest) tr)
        = (Ok tt,
           answered q (store p false i) (facing i (line data :: rest) tr)))
    /\ (strings.ToLower (strings.TrimSpace data) <> lit "y" ->
        strings.ToLower (strings.TrimSpace data) <> lit "n" ->
        cli_aws.inputYesNoParameter q p em (facing i (line data :: rest) tr)
        = (Ok tt, answered q i (facing i (line data :: rest) tr)))).
  { intros data Hd.
    pose proof (inputYesNoParameter_line q p em i rest tr Hd) as E.
    cbv zeta in E; rewrite E; clear E.
    repeat split.
    - intros ->; reflexivity.
    - intros ->; reflexivity.
    - intros Hy Hn; rewrite (streq_neq Hy), (streq_neq Hn); reflexivity. }
  repeat split.
  - apply (G (lit "Y")); [discriminate | reflexivity].
  - apply (G (lit "n")); [discriminate | reflexivity].
  - apply (G (lit "maybe")); discriminate.
  - apply (G (lit " y  ")); [discriminate | reflexivity].
  - apply (G data); assumption.
  - apply (G data); assumption.
  - apply (G data); assumption.
Qed.

(** C7 at an instance: the keyless flag, set before, and the line
    ["Perhaps"]. *)
Lemma C7_yes_no_prompt_witness :
  lit "Perhaps" <> []
  /\ strings.ToLower (strings.TrimSpace (lit "Perhaps")) <> lit "y"
  /\ strings.ToLower (strings.TrimSpace (lit "Perhaps")) <> lit "n"
  /\ cli_aws.inputYesNoParameter (lit "keyless? ") addr_IsKeyless false
       (facing (store addr_IsKeyless true emptyInput)
          [line (lit "Perhaps")] [])
     = (Ok tt,
        answered (lit "keyless? ") (store addr_IsKeyless true emptyInput)
          (facing (store addr_IsKeyless true emptyInput)
             [line (lit "Perhaps")] [])).
Proof.
  split; [discriminate|]; split; [discriminate|]; split; [discriminate|].
  apply (C7_yes_no_prompt (lit "keyless? ") addr_IsKeyless false
           (store addr_IsKeyless true emptyInput) [] []);
    discriminate.
Defined.

(** C10: the mandatory yes/no prompt tests the line for emptiness before
    it trims it.  A line of white space only, like any non-empty line that
    is neither y nor n, passes the test, returns no error and leaves the
    field as it was; the test fails on the empty line alone.  The wizard
    asks for the keyless mode with the mandatory flag, and goes on with
    [IsKeyless] false after a blank answer. *)
Theorem C10_mandatory_yes_no_checks_before_trimming
  (q : gostring) (p : ptr bool) (i : AWSInput)
  (rest : list (gostring * option error)) (tr : list Event) :
  (forall ws, ws <> [] -> Forall (fun r => unicode.IsSpace r = true) ws ->
     let s := facing i (line ws :: rest) tr in
     cli_aws.inputYesNoParameter q p false s = (Ok tt, answered q i s)
     /\ pkg_init.inputYesNoParameter q p false s = (Ok tt, answered q i s))
  /\ (forall data, data <> [] ->
        strings.ToLower (strings.TrimSpace data) <> lit "y" ->
        strings.ToLower (strings.TrimSpace data) <> lit "n" ->
        let s := facing i (line data :: rest) tr in
        cli_aws.inputYesNoParameter q p false s = (Ok tt, answered q i s))
  /\ (forall data err,
        let s := facing i ((data, err) :: rest) tr in
        let run := cli_aws.inputYesNoParameter q p false s in
        (strings.TrimSuffix data LF = [] ->
         run = (Err compulsory, answered q i s))
        /\ (strings.TrimSuffix data LF <> [] -> fst run = outcome err))
  /\ (let reads :=
        [line (lit "AKIA"); line (lit "secret"); line (lit "us-east-1");
         line []; line []; line []; line []; line []; line [];
         line (lit "   "); line []] in
      let run := cli_aws.ReceiveParameters allGood (start emptyInput reads) in
      fst run = Ok tt
      /\ IsKeyless (cfg (snd run)) = false
      /\ PublicKey (cfg (snd run)) = lit "cosign.pub")
  /\ (let reads :=
        [line (lit "AKIA"); line (lit "secret"); line (lit "us-east-1");
         line []; line []; line []; line (lit "   "); line []] in
      let run := pkg_init.ReceiveParameters allGood (start emptyInput reads) in
      fst run = Ok tt
      /\ IsKeyless (cfg (snd run)) = false
      /\ PublicKey (cfg (snd run)) = lit "cosign.pub").
Proof.
  split; [|split; [|split; [|split]]].
  - intros ws Hne Hws; cbv zeta.
    rewrite pkg_init_inputYesNoParameter.
    pose proof (inputYesNoParameter_line q p false i rest tr Hne) as E.
    cbv zeta in E; rewrite E; clear E.
    rewrite (TrimSpace_blank Hws); split; reflexivity.
  - intros data Hne Hy Hn; cbv zeta.
    pose proof (inputYesNoParameter_line q p false i rest tr Hne) as E.
    cbv zeta in E; rewrite E; clear E.
    rewrite (streq_neq Hy), (streq_neq Hn); reflexivity.
  - intros data err; cbv zeta.
    rewrite inputYesNoParameter_run.
    unfold facing, nextRead; cbn [world stdin fst snd cfg negb andb].
    split.
    + intros ->; reflexivity.
    + intros Hne; rewrite (streq_neq Hne); reflexivity.
  - vm_compute; repeat split.
  - vm_compute; repeat split.
Qed.

(** C10 at an instance: a tab and two blanks, and the line ["ok"]. *)
Lemma C10_mandatory_yes_no_checks_before_trimming_witness :
  let ws := [9%N; 32%N; 32%N] in
  let p := addr_IsKeyless in
  let s := facing emptyInput [line ws] [] in
  let s' := facing emptyInput [line (lit "ok")] [] in
  ws <> []
  /\ Forall (fun r => unicode.IsSpace r = true) ws
  /\ cli_aws.inputYesNoParameter (lit "keyless? ") p false s
     = (Ok tt, answered (lit "keyless? ") emptyInput s)
  /\ strings.TrimSuffix (lit "ok" ++ LF) LF <> []
  /\ fst (cli_aws.inputYesNoParameter (lit "keyless? ") p false s') = Ok tt.
Proof.
  cbv zeta.
  pose proof (C10_mandatory_yes_no_checks_before_trimming
                (lit "keyless? ") addr_IsKeyless emptyInput [] [])
    as [Hblank [_ [Hcheck _]]].
  assert (Hne : [9%N; 32%N; 32%N] <> []) by discriminate.
  assert (Hws : Forall (fun r => unicode.IsSpace r = true)
                  [9%N; 32%N; 32%N]) by (repeat constructor).
  assert (Hok : strings.TrimSuffix (lit "ok" ++ LF) LF <> [])
    by discriminate.
  split; [exact Hne|]; split; [exact Hws|].
  split; [exact (proj1 (Hblank _ Hne Hws))|].
  split; [exact Hok|].
  exact (proj2 (Hcheck _ None) Hok).
Defined.

(** ** Reads that fail *)

(** C9: when the read fails after delivering a non-empty text without its
    line end, the text prompt, the list prompt and the yes/no prompt treat
    the text as they treat a line, and return the reader's error with the
    field already assigned: the text itself, its trimmed pieces, the
    truth value it spells.  For the list prompt with the mandatory flag,
    non-empty is what the prompt itself tests: non-empty once trimmed. *)
Theorem C9_read_error_after_assignment
  (q : gostring) (ps : ptr gostring) (pl : ptr (list gostring))
  (pb : ptr bool) (em : bool) (i : AWSInput)
  (rest : list (gostring * option error)) (tr : list Event)
  (partial : gostring) (e : error) :
  partial <> [] -> ~ In 10%N partial -> lawful pl ->
  let s := facing i (broken partial e :: rest) tr in
  let t := strings.ToLower (strings.TrimSpace partial) in
  cli_aws.inputStringParameter q ps em s
  = (Err e, answered q (store ps partial i) s)
  /\ (em = true \/ strings.TrimSpace partial <> [] ->
      cli_aws.inputStringArrayParameter q pl em s
      = (Err e,
         answered q
           (store pl
              (map strings.TrimSpace
                 (strings.Split (strings.TrimSpace partial) (lit ","))) i)
           s))
  /\ cli_aws.inputYesNoParameter q pb em s
     = (Err e,
        answered q
          (if streq t (lit "y") then store pb true i
           else if streq t (lit "n") then store pb false i
           else i) s)
  /\ (t = lit "y" ->
      cli_aws.inputYesNoParameter q pb em s
      = (Err e, answered q (store pb true i) s))
  /\ pkg_init.inputStringParameter q ps em s
     = cli_aws.inputStringParameter q ps em s
  /\ pkg_init.inputYesNoParameter q pb em s
     = cli_aws.inputYesNoParameter q pb em s.
Proof.
  intros Hne HnoLF Hpl; cbv zeta.
  pose proof (TrimSuffix_no_LF partial HnoLF) as Htrim.
  repeat split.
  - rewrite inputStringParameter_run.
    unfold facing, nextRead, broken; cbn [world stdin fst snd cfg].
    cbv zeta; rewrite !Htrim.
    rewrite (streq_neq Hne), andb_false_r; reflexivity.
  - intros Hem.
    rewrite (inputStringArrayParameter_run _ _ _ Hpl).
    unfold facing, nextRead, broken; cbn [world stdin fst snd cfg].
    cbv zeta; rewrite Htrim.
    destruct Hem as [-> | Ht].
    + reflexivity.
    + rewrite (streq_neq Ht), andb_false_r; reflexivity.
  - rewrite inputYesNoParameter_run.
    unfold facing, nextRead, broken; cbn [world stdin fst snd cfg].
    cbv zeta; rewrite Htrim.
    rewrite (streq_neq Hne), andb_false_r; reflexivity.
  - intros Hy.
    rewrite inputYesNoParameter_run.
    unfold facing, nextRead, broken; cbn [world stdin fst snd cfg].
    cbv zeta; rewrite Htrim, Hy.
    rewrite (streq_neq Hne), andb_false_r; reflexivity.
Qed.

(** C9 at an instance: the standard input ends after ["eu-west-1"]. *)
Lemma C9_read_error_after_assignment_witness :
  let partial := lit "eu-west-1" in
  let s := facing emptyInput [broken partial io_EOF] [] in
  partial <> []
  /\ ~ In 10%N partial
  /\ lawful addr_IncludedFuncRegions
  /\ cli_aws.inputStringParameter (lit "enter region: ") addr_Region false s
     = (Err io_EOF,
        answered (lit "enter region: ") (store addr_Region partial emptyInput)
          s).
Proof.
  cbv zeta.
  assert (Hne : lit "eu-west-1" <> []) by discriminate.
  assert (HnoLF : ~ In 10%N (lit "eu-west-1")).
  { cbn; intros H; repeat destruct H as [H|H]; try discriminate; exact H. }
  split; [exact Hne|]; split; [exact HnoLF|].
  split; [exact lawful_IncludedFuncRegions|].
  exact (proj1 (C9_read_error_after_assignment (lit "enter region: ")
                  addr_Region addr_IsKeyless false emptyInput []
                  [] io_EOF Hne HnoLF lawful_IncludedFuncRegions)).
Defined.

(** ** The choice prompt *)

(** C5: the optional choice prompt over the map of ["1"] to ["detect"] and
    ["2"] to ["block"], in whichever order the map is visited, stores
    ["detect"] on ["1"], stores the empty string on the empty line, and on
    ["9"], as on any non-empty line that is none of the keys, stores
    nothing; none of these returns an error. *)
Theorem C5_optional_choice_prompt
  (action : gostring) (p : ptr gostring) (m : list (gostring * gostring))
  (i : AWSInput) (rest : list (gostring * option error)) (tr : list Event) :
  Permutation [(lit "1", lit "detect"); (lit "2", lit "block")] m ->
  let run := fun data =>
    cli_aws.inputMultipleChoiceParameter action p m true
      (facing i (line data :: rest) tr) in
  (fst (run (lit "1")) = Ok tt
   /\ cfg (snd (run (lit "1"))) = store p (lit "detect") i)
  /\ (fst (run (lit "2")) = Ok tt
      /\ cfg (snd (run (lit "2"))) = store p (lit "block") i)
  /\ (fst (run []) = Ok tt /\ cfg (snd (run [])) = store p [] i)
  /\ (fst (run (lit "9")) = Ok tt /\ cfg (snd (run (lit "9"))) = i)
  /\ (forall data, data <> [] -> data <> lit "1" -> data <> lit "2" ->
        fst (run data) = Ok tt /\ cfg (snd (run data)) = i).
Proof.
  intros Hm; cbv zeta.
  destruct (inputMultipleChoiceParameter_run action p m true) as [msg E].
  assert (R : forall data,
             cli_aws.inputMultipleChoiceParameter action p m true
               (facing i (line data :: rest) tr)
             = (Ok tt,
                answered msg
                  (if streq data []
                   then store p [] (chosen p data m i)
                   else chosen p data m i)
                  (facing i (line data :: rest) tr))).
  { intros data; rewrite E.
    unfold facing, nextRead, line; cbn [world stdin fst snd cfg negb andb].
    rewrite TrimSuffix_line; cbv zeta.
    destruct (streq data []); reflexivity. }
  assert (other : forall data, data <> lit "1" -> data <> lit "2" ->
                    chosen p data m i = i).
  { intros data H1 H2.
    apply Permutation_length_2_inv in Hm.
    destruct Hm as [-> | ->]; unfold chosen; cbn [fold_left];
      rewrite (streq_neq H1), (streq_neq H2); reflexivity. }
  assert (one : chosen p (lit "1") m i = store p (lit "detect") i).
  { apply Permutation_length_2_inv in Hm.
    destruct Hm as [-> | ->]; reflexivity. }
  assert (two : chosen p (lit "2") m i = store p (lit "block") i).
  { apply Permutation_length_2_inv in Hm.
    destruct Hm as [-> | ->]; reflexivity. }
  repeat split; try (rewrite R; reflexivity).
  - rewrite R; cbn [snd answered cfg]; exact one.
  - rewrite R; cbn [snd answered cfg]; exact two.
  - rewrite R; cbn [snd answered cfg streq].
    rewrite other by discriminate; reflexivity.
  - rewrite R; cbn [snd answered cfg].
    change (streq (lit "9") []) with false; cbv iota.
    apply other; discriminate.
  - rewrite R; cbn [snd answered cfg].
    rewrite (streq_neq H); apply other; assumption.
Qed.

(** C5 at an instance: the map visited from ["2"], and the line ["3"]. *)
Lemma C5_optional_choice_prompt_witness :
  let m := [(lit "2", lit "block"); (lit "1", lit "detect")] in
  let run :=
    cli_aws.inputMultipleChoiceParameter (lit "post verification action")
      addr_Action m true
      (facing (store addr_Action (lit "block") emptyInput)
         [line (lit "3")] []) in
  Permutation [(lit "1", lit "detect"); (lit "2", lit "block")] m
  /\ lit "3" <> [] /\ lit "3" <> lit "1" /\ lit "3" <> lit "2"
  /\ fst run = Ok tt
  /\ cfg (snd run) = store addr_Action (lit "block") emptyInput.
Proof.
  cbv zeta.
  assert (Hm : Permutation [(lit "1", lit "detect"); (lit "2", lit "block")]
                 [(lit "2", lit "block"); (lit "1", lit "detect")])
    by apply perm_swap.
  split; [exact Hm|].
  split; [discriminate|]; split; [discriminate|]; split; [discriminate|].
  apply (C5_optional_choice_prompt (lit "post verification action")
           addr_Action (store addr_Action (lit "block") emptyInput) [] []
           Hm);
    discriminate.
Defined.

(** ** What each function of the wizard can add to the history *)

Ltac emits_step :=
  first
    [ apply emits_ret
    | apply emits_fail
    | apply emits_return_
    | apply emits_assign
    | apply emits_deref
    | apply emits_ReadString
    | apply emits_bind; [|intros ?]
    | apply emits_for_; intros ?
    | match goal with
      | |- emits _ (if ?b then _ else _) => destruct b
      | |- emits _ (match ?x with _ => _ end) => destruct x
      end ].

Section Emits.
Variable P : Event -> Prop.
Hypothesis HPrinted : forall msg, P (Printed msg).

Lemma emits_inputStringParameter q p em :
  emits P (cli_aws.inputStringParameter q p em).
Proof.
  unfold cli_aws.inputStringParameter.
  apply emits_bind; [apply emits_Print, HPrinted | intros _].
  cbv zeta; repeat emits_step.
Qed.

Lemma emits_inputStringArrayParameter q p em :
  emits P (cli_aws.inputStringArrayParameter q p em).
Proof.
  unfold cli_aws.inputStringArrayParameter.
  apply emits_bind; [apply emits_Print, HPrinted | intros _].
  cbv zeta; repeat emits_step.
Qed.

Lemma emits_inputYesNoParameter q p em :
  emits P (cli_aws.inputYesNoParameter q p em).
Proof.
  unfold cli_aws.inputYesNoParameter.
  apply emits_bind; [apply emits_Print, HPrinted | intros _].
  cbv zeta; repeat emits_step.
Qed.

Lemma emits_inputMultipleChoiceParameter action p m em :
  emits P (cli_aws.inputMultipleChoiceParameter action p m em).
Proof.
  unfold cli_aws.inputMultipleChoiceParameter.
  cbv zeta.
  apply emits_bind; [apply emits_Print, HPrinted | intros _].
  repeat emits_step.
Qed.

Lemma emits_inputKeyPair : emits P cli_aws.inputKeyPair.
Proof.
  unfold cli_aws.inputKeyPair.
  repeat first [apply emits_inputStringParameter | emits_step].
Qed.

Hypothesis HBucket : forall name b, P (AskedBucket name b).
Hypothesis HSns : forall arn b, P (AskedSnsTopic arn b).
Hypothesis HTrail : forall name b, P (AskedCloudTrail name b).

Lemma emits_receiveAndValidateBucketName env c :
  emits P (cli_aws.receiveAndValidateBucketName env c).
Proof.
  unfold cli_aws.receiveAndValidateBucketName, andThen,
    clients.IsBucketExist.
  repeat first [apply emits_inputStringParameter
               | apply emits_emit, HBucket | emits_step].
Qed.

Lemma emits_receiveAndValidateSNSTopicArn env c :
  emits P (cli_aws.receiveAndValidateSNSTopicArn env c).
Proof.
  unfold cli_aws.receiveAndValidateSNSTopicArn, andThen,
    clients.IsSnsTopicExist.
  repeat first [apply emits_inputStringParameter
               | apply emits_emit, HSns | emits_step].
Qed.

Lemma emits_receiveAndValidateCloudTrail env c :
  emits P (cli_aws.receiveAndValidateCloudTrail env c).
Proof.
  unfold cli_aws.receiveAndValidateCloudTrail, andThen,
    clients.IsCloudTrailExist.
  repeat first [apply emits_inputStringParameter
               | apply emits_emit, HTrail | emits_step].
Qed.

Lemma emits_receiveAndValidateCredentials env :
  (forall c b, P (AskedCredentials c b)) ->
  emits P (cli_aws.receiveAndValidateCredentials env).
Proof.
  intros HCred.
  unfold cli_aws.receiveAndValidateCredentials, clients.ValidateCredentials.
  cbv zeta.
  repeat first [apply emits_inputStringParameter
               | apply emits_emit, HCred | emits_step].
Qed.

Lemma emits_digestParameters env :
  (forall o, P (GeneratedKeyPair o)) ->
  emits P (cli_aws.digestParameters env).
Proof.
  intros HGen.
  unfold cli_aws.digestParameters, generate.GenerateKeyPairCmd.
  repeat first [apply emits_emit, HGen | emits_step].
Qed.

End Emits.

(** ** Credentials *)

Lemma tl3_skipn {A : Type} (l : list A) : tl (tl (tl l)) = skipn 3 l.
Proof. destruct l as [|a [|b [|c l]]]; reflexivity. Qed.

(** How asking for the credentials can end: the cloud refused them, the
    cloud accepted them, or a prompt failed before the cloud was asked. *)
Lemma credentials_outcome env s r s1 :
  cli_aws.receiveAndValidateCredentials env s = (r, s1) ->
  let c :=
    clients.NewAwsClientInit (AccessKey (cfg s1)) (SecretKey (cfg s1))
      (Region (cfg s1)) in
  let asked := fun b =>
    [Printed (lit "enter Access Key: "); Printed (lit "enter Secret Key: ");
     Printed (lit "enter region: "); AskedCredentials c b] in
  (r = Err (Errorf (lit "validation error: credentials aren't valid"))
   /\ trace (world s1) = trace (world s) ++ asked false
   /\ stdin (world s1) = skipn 3 (stdin (world s))
   /\ sameAfterRegion (cfg s) (cfg s1)
   /\ validateCredentials env c = false)
  \/ (r = Ok c /\ trace (world s1) = trace (world s) ++ asked true)
  \/ ((exists e, r = Err e) /\ extends notCredentials s s1).
Proof.
  unfold cli_aws.receiveAndValidateCredentials, clients.ValidateCredentials.
  unfold bind.
  rewrite inputStringParameter_run; cbv zeta.
  assert (failed : forall e q i (s0 : State) evs,
             trace (world s0) = trace (world s) ++ evs ->
             Forall notCredentials evs ->
             (Err e : result AwsClient, answered q i s0) = (r, s1) ->
             (exists e, r = Err e) /\ extends notCredentials s s1).
  { intros e q i s0 evs Ht Hevs H; inversion H; subst; split.
    - eexists; reflexivity.
    - exists (evs ++ [Printed q]); unfold answered; cbn [world trace].
      rewrite Ht, app_assoc; split; [reflexivity|].
      apply Forall_app; split; [exact Hevs | repeat constructor]. }
  destruct (negb false && _).
  { intros H; right; right.
    eapply failed with (s0 := s) (evs := []);
      [symmetry; apply app_nil_r | constructor | exact H]. }
  destruct (snd (nextRead s)) as [e1|]; cbn [outcome].
  { intros H; right; right.
    eapply failed with (s0 := s) (evs := []);
      [symmetry; apply app_nil_r | constructor | exact H]. }
  rewrite inputStringParameter_run; cbv zeta.
  match goal with |- context [nextRead ?x] => set (s2 := x) end.
  assert (T2 : trace (world s2)
               = trace (world s) ++ [Printed (lit "enter Access Key: ")])
    by reflexivity.
  destruct (negb false && _).
  { intros H; right; right.
    eapply failed with (s0 := s2);
      [exact T2 | repeat constructor | exact H]. }
  destruct (snd (nextRead s2)) as [e2|]; cbn [outcome].
  { intros H; right; right.
    eapply failed with (s0 := s2);
      [exact T2 | repeat constructor | exact H]. }
  rewrite inputStringParameter_run; cbv zeta.
  match goal with |- context [nextRead ?x] => set (s3 := x) end.
  assert (T3 : trace (world s3)
               = trace (world s)
                 ++ [Printed (lit "enter Access Key: ");
                     Printed (lit "enter Secret Key: ")]).
  { unfold s3, answered; cbn [world trace]; rewrite T2, <- app_assoc.
    reflexivity. }
  destruct (negb false && _).
  { intros H; right; right.
    eapply failed with (s0 := s3);
      [exact T3 | repeat constructor | exact H]. }
  destruct (snd (nextRead s3)) as [e3|]; cbn [outcome].
  { intros H; right; right.
    eapply failed with (s0 := s3);
      [exact T3 | repeat constructor | exact H]. }
  unfold deref, emit, ret, fail; cbn [cfg world stdin trace answered].
  match goal with
  | |- context [validateCredentials env ?c] =>
      destruct (validateCredentials env c) eqn:V
  end; cbn [negb]; intros H; injection H as Hr Hs; rewrite <- Hr, <- Hs;
    cbn [cfg world stdin trace].
  - right; left; split; [reflexivity|].
    rewrite <- !app_assoc; reflexivity.
  - left; split; [reflexivity|].
    split; [rewrite <- !app_assoc; reflexivity|].
    split; [apply tl3_skipn|].
    split; [repeat split | exact V].
Qed.

Ltac emits_wizard :=
  repeat first
    [ apply emits_inputStringParameter; intros; exact I
    | apply emits_inputStringArrayParameter; intros; exact I
    | apply emits_inputYesNoParameter; intros; exact I
    | apply emits_inputMultipleChoiceParameter; intros; exact I
    | apply emits_inputKeyPair; intros; exact I
    | apply emits_receiveAndValidateBucketName; intros; exact I
    | apply emits_receiveAndValidateSNSTopicArn; intros; exact I
    | apply emits_receiveAndValidateCloudTrail; intros; exact I
    | apply emits_receiveAndValidateCredentials; intros; exact I
    | apply emits_digestParameters; intros; exact I
    | emits_step ].

(** C4: in every run of the wizard in which the cloud is asked about the
    credentials and answers no, the wizard returns a validation error, the
    whole run consists of the three credential prompts followed by that
    question, three answers have been read, and the fields that come after
    [Region] are what they were. *)
Theorem C4_invalid_credentials_stop_the_wizard
  (env : Env) (s s' : State) (r : result unit) (c : AwsClient) :
  cli_aws.ReceiveParameters env s = (r, s') ->
  In (AskedCredentials c false) (since s s') ->
  (exists e, r = Err e /\ ValidationError e)
  /\ since s s'
     = [Printed (lit "enter Access Key: "); Printed (lit "enter Secret Key: ");
        Printed (lit "enter region: "); AskedCredentials c false]
  /\ prompts (since s s')
     = [lit "enter Access Key: "; lit "enter Secret Key: ";
        lit "enter region: "]
  /\ c = clients.NewAwsClientInit (AccessKey (cfg s')) (SecretKey (cfg s'))
           (Region (cfg s'))
  /\ validateCredentials env c = false
  /\ stdin (world s') = skipn 3 (stdin (world s))
  /\ sameAfterRegion (cfg s) (cfg s').
Proof.
  intros H Hin.
  unfold cli_aws.ReceiveParameters in H; unfold bind at 1 in H.
  destruct (cli_aws.receiveAndValidateCredentials env s) as [[c0|e0] s1]
    eqn:E.
  - exfalso.
    destruct (credentials_outcome _ _ E) as [[O _] | [[_ T] | [[e O] _]]];
      try discriminate.
    match type of H with
    | ?m s1 = _ => assert (Em : emits notCredentials m) by emits_wizard
    end.
    destruct (Em _ _ _ H) as [evs [T' F]].
    rewrite T, <- app_assoc in T'.
    rewrite (since_app s s' _ T') in Hin.
    apply in_app_or in Hin; destruct Hin as [Hin | Hin].
    + repeat destruct Hin as [Hin | Hin]; try discriminate; exact Hin.
    + rewrite Forall_forall in F; exact (F _ Hin).
  - injection H as <- <-.
    destruct (credentials_outcome _ _ E)
      as [[O [T [R [S V]]]] | [[O _] | [_ X]]];
      try discriminate.
    + rewrite (since_app s s1 _ T) in Hin |- *.
      assert (Hc : c = clients.NewAwsClientInit (AccessKey (cfg s1))
                         (SecretKey (cfg s1)) (Region (cfg s1))).
      { repeat destruct Hin as [Hin | Hin]; try discriminate;
          [injection Hin as <-; reflexivity | contradiction]. }
      split.
      { exists (Errorf (lit "validation error: credentials aren't valid")).
        split; [injection O as ->; reflexivity|].
        eexists; split; reflexivity. }
      rewrite <- Hc in V |- *.
      split; [reflexivity|]; split; [reflexivity|]; split; [reflexivity|].
      split; [exact V|]; split; [exact R | exact S].
    + exfalso.
      apply extends_since in X; rewrite Forall_forall in X.
      exact (X _ Hin).
Qed.

(** C4 at an instance: a cloud that refuses every credential, and an
    operator who has typed a bucket name ahead. *)
Lemma C4_invalid_credentials_stop_the_wizard_witness :
  let s :=
    start emptyInput
      [line (lit "AKIA"); line (lit "wrong"); line (lit "us-east-1");
       line (lit "my-bucket")] in
  let run := cli_aws.ReceiveParameters badCredentials s in
  let c := mkAwsClient (lit "AKIA") (lit "wrong") (lit "us-east-1") in
  run = (fst run, snd run)
  /\ In (AskedCredentials c false) (since s (snd run))
  /\ stdin (world (snd run)) = [line (lit "my-bucket")]
  /\ prompts (since s (snd run))
     = [lit "enter Access Key: "; lit "enter Secret Key: ";
        lit "enter region: "].
Proof.
  cbv zeta.
  match goal with
  | |- ?run = _ /\ In (AskedCredentials ?c false) (since ?s _) /\ _ =>
      assert (H : run = (fst run, snd run)) by apply surjective_pairing;
      assert (Hin : In (AskedCredentials c false) (since s (snd run)))
        by (vm_compute; right; right; right; left; reflexivity);
      pose proof (@C4_invalid_credentials_stop_the_wizard _ _ _ _ _ H Hin)
        as [_ [_ [Hp [_ [_ [Hs _]]]]]]
  end.
  split; [exact H|]; split; [exact Hin|]; split; [exact Hs | exact Hp].
Defined.

(** ** Finalization *)

Lemma generations_none evs : Forall notGeneration evs -> generations evs = 0.
Proof.
  unfold generations; induction 1 as [|ev evs Hev _ IH]; [reflexivity|].
  destruct ev; simpl in *; try exact IH; contradiction.
Qed.

Lemma generations_snoc evs o :
  generations (evs ++ [GeneratedKeyPair o]) = S (generations evs).
Proof.
  unfold generations; rewrite filter_app, length_app; simpl; lia.
Qed.

Lemma digestParameters_run env s :
  cli_aws.digestParameters env s =
  if streq (PublicKey (cfg s)) [] && negb (IsKeyless (cfg s))
  then
    match generateKeyPair env with
    | None =>
        (Ok tt,
         after (GeneratedKeyPair None)
           (store addr_PrivateKey (lit "cosign.key")
              (store addr_PublicKey (lit "cosign.pub") (cfg s))) s)
    | Some e => (Err e, after (GeneratedKeyPair (Some e)) (cfg s) s)
    end
  else (Ok tt, s).
Proof.
  unfold cli_aws.digestParameters, generate.GenerateKeyPairCmd.
  unfold bind, deref, emit, assign, return_, ret, fail, after.
  cbn [cfg world load addr_PublicKey addr_IsKeyless].
  destruct (streq _ [] && _); [|reflexivity].
  destruct (generateKeyPair env); reflexivity.
Qed.

(** What the finalization does to a state reached without any key
    generation. *)
Lemma digest_finalizes env s mid s' :
  extends notGeneration s mid ->
  cli_aws.digestParameters env mid = (Ok tt, s') ->
  finalizedBy (cli_aws.digestParameters env) s s'
  /\ (IsKeyless (cfg s') = false -> PublicKey (cfg s') <> []).
Proof.
  intros [evs [T F]] D.
  pose proof (generations_none F) as G0.
  pose proof D as D'.
  rewrite digestParameters_run in D'.
  destruct (streq (PublicKey (cfg mid)) []) eqn:Epk;
    [destruct (IsKeyless (cfg mid)) eqn:Ekl|]; cbn [negb andb] in D'.
  - assert (Es : s' = mid) by congruence; subst s'; clear D'.
    split; [|intros Hk; congruence].
    exists mid; rewrite (since_app s mid _ T).
    repeat split; try assumption; congruence.
  - destruct (generateKeyPair env); [discriminate|].
    assert (Es : s' = after (GeneratedKeyPair None)
                        (store addr_PrivateKey (lit "cosign.key")
                           (store addr_PublicKey (lit "cosign.pub")
                              (cfg mid))) mid) by congruence.
    clear D'.
    assert (T' : trace (world s')
                 = trace (world s) ++ evs ++ [GeneratedKeyPair None]).
    { rewrite Es; unfold after; cbn [world trace].
      rewrite T, app_assoc; reflexivity. }
    split; [|intros _; rewrite Es; discriminate].
    exists mid; rewrite (since_app s mid _ T), (since_app s _ _ T').
    rewrite generations_snoc, G0.
    repeat split; try assumption; try (rewrite Es; reflexivity);
      exfalso;
      match goal with
      | X : _ \/ _ |- _ =>
          destruct X as [Hk | Hp];
          [congruence | apply streq_eq in Epk; contradiction]
      end.
  - assert (Es : s' = mid) by congruence; subst s'; clear D'.
    assert (Hpk : PublicKey (cfg mid) <> []).
    { intros Hp; rewrite Hp in Epk; discriminate. }
    split; [|intros _; exact Hpk].
    exists mid; rewrite (since_app s mid _ T).
    repeat split; try assumption; contradiction.
Qed.

Ltac peel H :=
  apply bind_Ok in H;
  let a := fresh "a" in
  let s1 := fresh "s" in
  let H1 := fresh "H" in
  destruct H as (a & s1 & H1 & H);
  match type of H1 with
  | ?m _ = _ =>
      let E := fresh "E" in
      assert (E : emits notGeneration m) by emits_wizard;
      apply E in H1; clear E
  end.

Ltac chain :=
  repeat (eapply extends_trans; [eassumption|]); apply extends_refl.

(** C3: every run of the wizard that returns no error ends with its
    finalization, reached without any key generation; if the record is
    then not keyless and has no public key, the run generates exactly one
    key pair and the record gets ["cosign.pub"] and ["cosign.key"].  Hence
    a record returned without error that is not keyless has a public
    key.  This holds of the wizard of [cli/aws] and of the earlier one of
    [pkg/init]. *)
Theorem C3_key_pair_generated_when_missing (env : Env) (s s' : State) :
  (cli_aws.ReceiveParameters env s = (Ok tt, s') ->
   finalizedBy (cli_aws.digestParameters env) s s'
   /\ (IsKeyless (cfg s') = false -> PublicKey (cfg s') <> []))
  /\ (pkg_init.ReceiveParameters env s = (Ok tt, s') ->
      finalizedBy (pkg_init.digestParameters env) s s'
      /\ (IsKeyless (cfg s') = false -> PublicKey (cfg s') <> [])).
Proof.
  split; intros H.
  - unfold cli_aws.ReceiveParameters in H.
    do 10 peel H.
    apply (@digest_finalizes env s s9 s'); [chain | exact H].
  - unfold pkg_init.ReceiveParameters in H.
    do 9 peel H.
    rewrite pkg_init_digestParameters in H.
    destruct (@digest_finalizes env s s8 s') as [[mid F] I];
      [chain | exact H |].
    split; [|exact I].
    exists mid; rewrite pkg_init_digestParameters; exact F.
Qed.

(** C3 at an instance: the operator declines the keyless mode and gives no
    public key. *)
Lemma C3_key_pair_generated_when_missing_witness :
  let s :=
    start emptyInput
      [line (lit "AKIA"); line (lit "secret"); line (lit "us-east-1");
       line []; line []; line []; line (lit "1"); line []; line [];
       line (lit "n"); line []] in
  let s' := snd (cli_aws.ReceiveParameters allGood s) in
  cli_aws.ReceiveParameters allGood s = (Ok tt, s')
  /\ finalizedBy (cli_aws.digestParameters allGood) s s'
  /\ (IsKeyless (cfg s') = false -> PublicKey (cfg s') <> [])
  /\ generations (since s s') = 1
  /\ PublicKey (cfg s') = lit "cosign.pub"
  /\ PrivateKey (cfg s') = lit "cosign.key".
Proof.
  cbv zeta.
  match goal with
  | |- ?run = (Ok tt, ?s') /\ _ =>
      assert (H : run = (Ok tt, s')) by (vm_compute; reflexivity)
  end.
  split; [exact H|].
  destruct (proj1 (C3_key_pair_generated_when_missing allGood _ _) H)
    as [F I].
  split; [exact F|]; split; [exact I|].
  vm_compute; repeat split.
Defined.

(** ** Mandatory prompts *)

Ltac answer :=
  rewrite inputStringParameter_run;
  unfold answered, nextRead, facing, line;
  cbn [world stdin tl fst snd cfg]; cbv zeta;
  rewrite ?TrimSuffix_line.

(** C6: on the empty line every mandatory prompt returns the
    missing-parameter error and leaves the record as it was: the text
    prompt, the choice prompt and the yes/no prompt with the mandatory
    flag, and in the wizard the prompts for the access key, for the secret
    key and for the region, and the prompt for the private key once a
    public key has been given; the fields assigned by earlier prompts
    apart, nothing is assigned. *)
Theorem C6_mandatory_prompt_rejects_empty_line
  (env : Env) (q action : gostring) (p : ptr gostring) (pb : ptr bool)
  (m : list (gostring * gostring)) (i : AWSInput)
  (rest : list (gostring * option error)) (tr : list Event)
  (ak sk pub : gostring) :
  ak <> [] -> sk <> [] -> strings.TrimSuffix pub LF <> [] ->
  let s := facing i (line [] :: rest) tr in
  let s2 := facing i (line ak :: line [] :: rest) tr in
  let s3 := facing i (line ak :: line sk :: line [] :: rest) tr in
  let sk2 := facing i (line pub :: line [] :: rest) tr in
  rejected i (cli_aws.inputStringParameter q p false s)
  /\ rejected i (pkg_init.inputStringParameter q p false s)
  /\ rejected i (cli_aws.inputMultipleChoiceParameter action p m false s)
  /\ rejected i (cli_aws.inputYesNoParameter q pb false s)
  /\ rejected i (cli_aws.ReceiveParameters env s)
  /\ rejected i (pkg_init.ReceiveParameters env s)
  /\ rejectedKeeping SecretKey i (cli_aws.ReceiveParameters env s2)
  /\ rejectedKeeping SecretKey i (pkg_init.ReceiveParameters env s2)
  /\ rejectedKeeping Region i (cli_aws.ReceiveParameters env s3)
  /\ rejectedKeeping Region i (pkg_init.ReceiveParameters env s3)
  /\ rejectedKeeping PrivateKey i (cli_aws.inputKeyPair sk2)
  /\ rejectedKeeping PrivateKey i (pkg_init.inputKeyPair sk2).
Proof.
  intros Hak Hsk Hpub; cbv zeta.
  assert (Hak' := streq_neq Hak).
  assert (Hsk' := streq_neq Hsk).
  assert (Hpub' := streq_neq Hpub).
  assert (Hpub2 : pub <> []) by (intros ->; apply Hpub; reflexivity).
  assert (Hpub2' := streq_neq Hpub2).
  assert (E : strings.TrimSuffix ([] ++ LF) LF = []) by reflexivity.
  unfold pkg_init.ReceiveParameters, cli_aws.ReceiveParameters,
    cli_aws.receiveAndValidateCredentials.
  rewrite pkg_init_inputStringParameter, pkg_init_inputKeyPair.
  unfold cli_aws.inputKeyPair.
  unfold rejected, rejectedKeeping, bind.
  repeat split.
  - answer; exists compulsory; repeat split.
  - answer; exists compulsory; repeat split.
  - destruct (inputMultipleChoiceParameter_run action p m false) as [msg R].
    rewrite R; unfold answered, nextRead, facing, line.
    cbn [world stdin tl fst snd cfg]; cbv zeta.
    exists compulsory; repeat split.
  - rewrite inputYesNoParameter_run.
    unfold answered, nextRead, facing, line.
    cbn [world stdin tl fst snd cfg]; cbv zeta.
    exists compulsory; repeat split.
  - answer; exists compulsory; repeat split.
  - answer; exists compulsory; repeat split.
  - answer; rewrite Hak'; cbn [negb andb outcome].
    answer; exists compulsory; repeat split.
  - answer; rewrite Hak'; cbn [negb andb outcome].
    answer; exists compulsory; repeat split.
  - answer; rewrite Hak'; cbn [negb andb outcome].
    answer; rewrite Hsk'; cbn [negb andb outcome].
    answer; exists compulsory; repeat split.
  - answer; rewrite Hak'; cbn [negb andb outcome].
    answer; rewrite Hsk'; cbn [negb andb outcome].
    answer; exists compulsory; repeat split.
  - answer; cbn [negb andb outcome].
    unfold deref; cbn [cfg load store addr_PublicKey PublicKey].
    rewrite Hpub'; cbn [negb].
    answer; exists compulsory; repeat split.
  - answer; cbn [negb andb outcome].
    unfold deref; cbn [cfg load store addr_PublicKey PublicKey].
    rewrite Hpub'; cbn [negb].
    answer; exists compulsory; repeat split.
Qed.

(** C6 at an instance: the operator gives the access key and the secret
    key and then presses enter at the region. *)
Lemma C6_mandatory_prompt_rejects_empty_line_witness :
  let ak := lit "AKIA" in
  let sk := lit "secret" in
  let pub := lit "my.pub" in
  let s3 := facing emptyInput [line ak; line sk; line []] [] in
  ak <> [] /\ sk <> [] /\ strings.TrimSuffix pub LF <> []
  /\ rejectedKeeping Region emptyInput
       (cli_aws.ReceiveParameters allGood s3).
Proof.
  cbv zeta.
  assert (Hak : lit "AKIA" <> []) by discriminate.
  assert (Hsk : lit "secret" <> []) by discriminate.
  assert (Hpub : strings.TrimSuffix (lit "my.pub") LF <> [])
    by discriminate.
  split; [exact Hak|]; split; [exact Hsk|]; split; [exact Hpub|].
  apply (@C6_mandatory_prompt_rejects_empty_line allGood [] [] addr_Region
           addr_IsKeyless [] emptyInput [] [] _ _ _ Hak Hsk Hpub).
Defined.

(** ** Existence checks *)

(** What the three existence checks return when the cloud says that the
    name just entered does not exist. *)
Lemma existence_check_failures env c i rest tr name :
  strings.TrimSuffix name LF <> [] ->
  let v := strings.TrimSuffix name LF in
  let s := facing i (line name :: rest) tr in
  (bucketExists env c v = false ->
   fst (cli_aws.receiveAndValidateBucketName env c s)
   = Err (Errorf (lit "validation error: bucket doesn't exist or you don't have permissions")))
  /\ (snsTopicExists env c v = false ->
      fst (cli_aws.receiveAndValidateSNSTopicArn env c s)
      = Err (Errorf (lit "validation error: SNS topic doesn't exist or you don't have permissions")))
  /\ (cloudTrailExists env c v = false ->
      fst (cli_aws.receiveAndValidateCloudTrail env c s)
      = Err (Errorf (lit "validation error: SNS topic doesn't exist or you don't have permissions"))).
Proof.
  intros Hv; cbv zeta.
  assert (Hv' := streq_neq Hv).
  assert (Hn : name <> []) by (intros ->; apply Hv; reflexivity).
  assert (Hn' := streq_neq Hn).
  unfold cli_aws.receiveAndValidateBucketName,
    cli_aws.receiveAndValidateSNSTopicArn,
    cli_aws.receiveAndValidateCloudTrail, andThen, clients.IsBucketExist,
    clients.IsSnsTopicExist, clients.IsCloudTrailExist, bind.
  repeat split; intros Hq; answer; cbn [negb andb outcome];
    unfold deref, emit, ret, fail;
    cbn [cfg load store addr_Bucket addr_SnsTopicArn addr_CloudTrail_Name
           Bucket SnsTopicArn CloudTrail_ Name];
    rewrite Hv'; cbn [negb]; rewrite Hq; reflexivity.
Qed.

(** C2, as the code has it: when the cloud knows no audit trail of the
    name entered, the error returned is a validation error, and its
    message is the one of the SNS topic check: it names the SNS topic and
    does not mention the trail. *)
Theorem C2_missing_trail_reported_as_sns_topic :
  let c := mkAwsClient (lit "AKIA") (lit "secret") (lit "us-east-1") in
  let s := start emptyInput [line (lit "my-trail")] in
  let msg :=
    lit "validation error: SNS topic doesn't exist or you don't have permissions" in
  let run := cli_aws.receiveAndValidateCloudTrail noTrail c s in
  fst run = Err (Errorf msg)
  /\ ValidationError (Errorf msg)
  /\ since s (snd run)
     = [Printed (lit "is there existing trail in CloudTrail (in the region selected above) which you would like to use? (if no, please press enter): ");
        AskedCloudTrail (lit "my-trail") false]
  /\ strings.Contains msg (lit "SNS topic") = true
  /\ strings.Contains (strings.ToLower msg) (lit "trail") = false.
Proof.
  cbv zeta.
  split; [vm_compute; reflexivity|].
  split; [eexists; split; reflexivity|].
  split; [vm_compute; reflexivity|].
  split; vm_compute; reflexivity.
Qed.

(** ** A complete run *)

(** The wizard of [cli/aws] on an account where everything exists: the
    operator names a bucket, two regions, the action 2, no topic, no
    trail, declines the keyless mode and brings a key pair. *)
Example wizard_run :
  let reads :=
    [line (lit "AKIA"); line (lit "secret"); line (lit "us-east-1");
     line (lit "my-bucket"); line [];
     line (lit "us-east-1, eu-west-1"); line (lit "2"); line []; line [];
     line (lit "N"); line (lit "my.pub"); line (lit "my.key")] in
  let run := cli_aws.ReceiveParameters allGood (start emptyInput reads) in
  fst run = Ok tt
  /\ cfg (snd run)
     = mkAWSInput (lit "AKIA") (lit "secret") (lit "us-east-1")
         (lit "my-bucket") (lit "block") (lit "my.pub") (lit "my.key")
         (mkCloudTrail []) false [[]] [lit "us-east-1"; lit "eu-west-1"] []
  /\ stdin (world (snd run)) = []
  /\ length (prompts (trace (world (snd run)))) = 12
  /\ generations (trace (world (snd run))) = 0.
Proof. vm_compute; repeat split. Qed.

(** * Further properties of the prompts *)

(** ** The text prompt *)

(** X1: a line without inner line feed is stored by the text prompt exactly
    as typed, white space included, and no error is returned, provided the
    line is not empty or the prompt is optional; so a mandatory prompt
    accepts a line of blanks. *)
Theorem X1_text_prompt_stores_line_untrimmed
  (q : gostring) (p : ptr gostring) (em : bool) (i : AWSInput)
  (rest : list (gostring * option error)) (tr : list Event) (l : gostring) :
  ~ In 10%N l -> em = true \/ l <> [] ->
  let s := facing i (line l :: rest) tr in
  cli_aws.inputStringParameter q p em s = (Ok tt, answered q (store p l i) s)
  /\ pkg_init.inputStringParameter q p em s
     = (Ok tt, answered q (store p l i) s).
Proof.
  intros HnoLF Hem; cbv zeta.
  rewrite pkg_init_inputStringParameter.
  assert (E : cli_aws.inputStringParameter q p em
                (facing i (line l :: rest) tr)
              = (Ok tt,
                 answered q (store p l i) (facing i (line l :: rest) tr))).
  { rewrite inputStringParameter_run.
    unfold facing, nextRead, line; cbn [world stdin fst snd cfg]; cbv zeta.
    rewrite TrimSuffix_line, (TrimSuffix_no_LF l HnoLF).
    destruct Hem as [-> | Hne]; [reflexivity|].
    rewrite (streq_neq Hne), andb_false_r; reflexivity. }
  split; exact E.
Qed.

(** X1 at an instance: three blanks for the mandatory access key. *)
Lemma X1_text_prompt_stores_line_untrimmed_witness :
  let l := lit "   " in
  let s := facing emptyInput [line l] [] in
  ~ In 10%N l
  /\ (false = true \/ l <> [])
  /\ cli_aws.inputStringParameter (lit "enter Access Key: ") addr_AccessKey
       false s
     = (Ok tt,
        answered (lit "enter Access Key: ") (store addr_AccessKey l emptyInput)
          s).
Proof.
  cbv zeta.
  assert (HnoLF : ~ In 10%N (lit "   ")).
  { cbn; intros H; repeat destruct H as [H|H]; try discriminate; exact H. }
  assert (Hne : false = true \/ lit "   " <> []) by (right; discriminate).
  split; [exact HnoLF|]; split; [exact Hne|].
  exact (proj1 (@X1_text_prompt_stores_line_untrimmed
                  (lit "enter Access Key: ") addr_AccessKey false emptyInput
                  [] [] (lit "   ") HnoLF Hne)).
Defined.

(** ** The list prompt *)

(** X2: the list prompt cannot tell a line of blanks from the empty line:
    with the mandatory flag it returns the missing-parameter error and
    assigns nothing, and in either mode it does what it does on the empty
    line. *)
Theorem X2_list_prompt_blank_line
  (q : gostring) (p : ptr (list gostring)) (em : bool) (i : AWSInput)
  (rest : list (gostring * option error)) (tr : list Event) (ws : gostring) :
  Forall (fun r => unicode.IsSpace r = true) ws ->
  let s := facing i (line ws :: rest) tr in
  cli_aws.inputStringArrayParameter q p false s
  = (Err compulsory, answered q i s)
  /\ cli_aws.inputStringArrayParameter q p em s
     = cli_aws.inputStringArrayParameter q p em
         (facing i (line [] :: rest) tr).
Proof.
  intros Hws; cbv zeta.
  assert (E : forall em' d,
             strings.TrimSpace d = [] ->
             cli_aws.inputStringArrayParameter q p em'
               (facing i (line d :: rest) tr)
             = if em'
               then
                 (v <- (assign p (strings.Split [] (lit ",")) ;; deref p) ;;
                  for_ (seq 0 (length v)) (fun index =>
                    v <- deref p ;;
                    assign p
                      (update v index (strings.TrimSpace (nth index v []))))
                  ;; return_ None)
                   (mkState i (mkWorld rest (tr ++ [Printed q])))
               else (Err compulsory,
                     mkState i (mkWorld rest (tr ++ [Printed q])))).
  { intros em' d Hd.
    unfold cli_aws.inputStringArrayParameter, facing, line.
    unfold bind at 1; unfold fmt.Print, emit; cbn [cfg world stdin trace].
    unfold bind at 1; unfold ReadString; cbn [cfg world stdin trace].
    cbv zeta; rewrite TrimSuffix_line, Hd.
    destruct em'; cbn [negb andb streq]; [|reflexivity].
    unfold bind; reflexivity. }
  split.
  - rewrite (E false ws (TrimSpace_blank Hws)); reflexivity.
  - rewrite (E em ws (TrimSpace_blank Hws)), (E em [] eq_refl); reflexivity.
Qed.

(** X2 at an instance: a tab and a blank for the tag keys. *)
Lemma X2_list_prompt_blank_line_witness :
  let ws := [9%N; 32%N] in
  let s := facing emptyInput [line ws] [] in
  Forall (fun r => unicode.IsSpace r = true) ws
  /\ cli_aws.inputStringArrayParameter (lit "tags: ") addr_IncludedFuncTagKeys
       false s
     = (Err compulsory, answered (lit "tags: ") emptyInput s).
Proof.
  cbv zeta.
  assert (Hws : Forall (fun r => unicode.IsSpace r = true) [9%N; 32%N])
    by (repeat constructor).
  split; [exact Hws|].
  exact (proj1 (@X2_list_prompt_blank_line (lit "tags: ")
                  addr_IncludedFuncTagKeys false emptyInput [] [] _ Hws)).
Defined.

(** ** Reads that deliver nothing *)



(** ** The choice prompt *)

(** X4: the choice prompt returns a reader's error before it looks at the
    text: whatever text the failed read delivered, one of the keys
    included, nothing is assigned, in either mode. *)
Theorem X4_choice_prompt_read_error
  (action : gostring) (p : ptr gostring) (m : list (gostring * gostring))
  (em : bool) (i : AWSInput) (rest : list (gostring * option error))
  (tr : list Event) (partial : gostring) (e : error) :
  let run :=
    cli_aws.inputMultipleChoiceParameter action p m em
      (facing i (broken partial e :: rest) tr) in
  fst run = Err e
  /\ cfg (snd run) = i
  /\ stdin (world (snd run)) = rest
  /\ length (prompts (since (facing i (broken partial e :: rest) tr)
                        (snd run))) = 1.
Proof.
  cbv zeta.
  destruct (inputMultipleChoiceParameter_run action p m em) as [msg R].
  rewrite R.
  unfold facing, nextRead, broken, since, answered.
  cbn [world stdin trace fst snd cfg tl].
  rewrite skipn_app, skipn_all, Nat.sub_diag.
  repeat split.
Qed.

(** The scan of a map that has no entry for the input assigns nothing. *)
Lemma chosen_absent p input m i :
  ~ In input (map fst m) -> chosen p input m i = i.
Proof.
  unfold chosen; revert i; induction m as [|[k v] m IH]; intros i H.
  - reflexivity.
  - cbn [fold_left].
    rewrite streq_neq by (intros ->; apply H; left; reflexivity).
    apply IH; intros Hin; apply H; right; exact Hin.
Qed.

(** The scan of a map with distinct keys assigns the element of the entry
    whose key is the input. *)
Lemma chosen_present p k v m i :
  NoDup (map fst m) -> In (k, v) m -> chosen p k m i = store p v i.
Proof.
  unfold chosen; revert i; induction m as [|[k' v'] m IH]; intros i Hnd Hin.
  - destruct Hin.
  - cbn [map fst] in Hnd; inversion Hnd as [|x xs Hk' Hnd']; subst.
    cbn [fold_left].
    destruct Hin as [Heq | Hin].
    + injection Heq as -> ->.
      rewrite (proj2 (streq_eq k k) eq_refl).
      apply chosen_absent; exact Hk'.
    + rewrite streq_neq.
      * apply IH; assumption.
      * intros ->; apply Hk'.
        apply in_map_iff; exists (k', v); split; [reflexivity | exact Hin].
Qed.

(** X5: over any map, whose keys are distinct, and in either mode, the
    choice prompt is a lookup of the line among the keys: a non-empty line
    that is the key of an entry stores the element of that entry, wherever
    the entry is visited, and a non-empty line that is no key stores
    nothing; neither returns an error. *)
Theorem X5_choice_prompt_is_a_lookup
  (action : gostring) (p : ptr gostring) (m : list (gostring * gostring))
  (em : bool) (i : AWSInput) (rest : list (gostring * option error))
  (tr : list Event) (k : gostring) :
  NoDup (map fst m) -> k <> [] ->
  let run :=
    cli_aws.inputMultipleChoiceParameter action p m em
      (facing i (line k :: rest) tr) in
  fst run = Ok tt
  /\ (forall v, In (k, v) m -> cfg (snd run) = store p v i)
  /\ (~ In k (map fst m) -> cfg (snd run) = i).
Proof.
  intros Hnd Hk; cbv zeta.
  destruct (inputMultipleChoiceParameter_run action p m em) as [msg R].
  rewrite R.
  unfold facing, nextRead, line; cbn [world stdin fst snd cfg].
  rewrite TrimSuffix_line; cbv zeta.
  rewrite (streq_neq Hk), andb_false_r.
  cbn [fst snd answered cfg].
  split; [reflexivity|]; split.
  - intros v Hin; apply chosen_present; assumption.
  - intros Hout; apply chosen_absent; exact Hout.
Qed.

(** X5 at an instance: a map of three regions and the line ["eu"]. *)
Lemma X5_choice_prompt_is_a_lookup_witness :
  let m :=
    [(lit "us", lit "us-east-1"); (lit "eu", lit "eu-west-1");
     (lit "ap", lit "ap-south-1")] in
  let run :=
    cli_aws.inputMultipleChoiceParameter (lit "region") addr_Region m false
      (facing emptyInput [line (lit "eu")] []) in
  NoDup (map fst m)
  /\ lit "eu" <> []
  /\ In (lit "eu", lit "eu-west-1") m
  /\ fst run = Ok tt
  /\ cfg (snd run) = store addr_Region (lit "eu-west-1") emptyInput.
Proof.
  cbv zeta.
  assert (Hnd : NoDup (map fst [(lit "us", lit "us-east-1");
                                (lit "eu", lit "eu-west-1");
                                (lit "ap", lit "ap-south-1")])).
  { repeat constructor; cbn; intros H;
      repeat destruct H as [H|H]; try discriminate; exact H. }
  assert (Hk : lit "eu" <> []) by discriminate.
  assert (Hin : In (lit "eu", lit "eu-west-1")
                  [(lit "us", lit "us-east-1"); (lit "eu", lit "eu-west-1");
                   (lit "ap", lit "ap-south-1")])
    by (right; left; reflexivity).
  split; [exact Hnd|]; split; [exact Hk|]; split; [exact Hin|].
  pose proof (@X5_choice_prompt_is_a_lookup (lit "region") addr_Region _
                false emptyInput [] [] _ Hnd Hk) as [HOk [Hv _]].
  split; [exact HOk | exact (Hv _ Hin)].
Defined.

(** * Further properties of the steps of the wizard *)

(** ** The existence checks *)

Ltac check_line Hn :=
  intros Hn; cbv zeta;
  unfold cli_aws.receiveAndValidateBucketName,
    cli_aws.receiveAndValidateSNSTopicArn,
    cli_aws.receiveAndValidateCloudTrail, andThen, clients.IsBucketExist,
    clients.IsSnsTopicExist, clients.IsCloudTrailExist, bind;
  answer; rewrite (TrimSuffix_no_LF _ Hn); cbn [negb andb outcome];
  unfold deref, emit, ret, fail;
  cbn [cfg world stdin trace load store addr_Bucket addr_SnsTopicArn
         addr_CloudTrail_Name Bucket SnsTopicArn CloudTrail_ Name];
  match goal with
  | |- context [streq ?n []] => destruct (streq n [])
  end; cbn [negb]; [reflexivity|];
  match goal with
  | |- context [negb ?b] => destruct b
  end; reflexivity.

(** The bucket check on a line, as an equation on the state. *)
Lemma receiveAndValidateBucketName_line env c i rest tr name :
  ~ In 10%N name ->
  let q := lit "enter default bucket (you can leave empty and a bucket with name functionclarity will be created): " in
  let i' := store addr_Bucket name i in
  cli_aws.receiveAndValidateBucketName env c (facing i (line name :: rest) tr)
  = if streq name []
    then (Ok tt, mkState i' (mkWorld rest (tr ++ [Printed q])))
    else
      (if bucketExists env c name
       then Ok tt
       else Err (Errorf (lit "validation error: bucket doesn't exist or you don't have permissions")),
       mkState i'
         (mkWorld rest ((tr ++ [Printed q])
                        ++ [AskedBucket name (bucketExists env c name)]))).
Proof. check_line Hn. Qed.

Lemma receiveAndValidateSNSTopicArn_line env c i rest tr name :
  ~ In 10%N name ->
  let q := lit "enter SNS arn if you would like to be notified when signature verification fails, otherwise press enter: " in
  let i' := store addr_SnsTopicArn name i in
  cli_aws.receiveAndValidateSNSTopicArn env c
    (facing i (line name :: rest) tr)
  = if streq name []
    then (Ok tt, mkState i' (mkWorld rest (tr ++ [Printed q])))
    else
      (if snsTopicExists env c name
       then Ok tt
       else Err (Errorf (lit "validation error: SNS topic doesn't exist or you don't have permissions")),
       mkState i'
         (mkWorld rest ((tr ++ [Printed q])
                        ++ [AskedSnsTopic name (snsTopicExists env c name)]))).
Proof. check_line Hn. Qed.

Lemma receiveAndValidateCloudTrail_line env c i rest tr name :
  ~ In 10%N name ->
  let q := lit "is there existing trail in CloudTrail (in the region selected above) which you would like to use? (if no, please press enter): " in
  let i' := store addr_CloudTrail_Name name i in
  cli_aws.receiveAndValidateCloudTrail env c (facing i (line name :: rest) tr)
  = if streq name []
    then (Ok tt, mkState i' (mkWorld rest (tr ++ [Printed q])))
    else
      (if cloudTrailExists env c name
       then Ok tt
       else Err (Errorf (lit "validation error: SNS topic doesn't exist or you don't have permissions")),
       mkState i'
         (mkWorld rest
            ((tr ++ [Printed q])
             ++ [AskedCloudTrail name (cloudTrailExists env c name)]))).
Proof. check_line Hn. Qed.

Lemma since_one i reads tr i' reads' a :
  since (facing i reads tr) (mkState i' (mkWorld reads' (tr ++ [a]))) = [a].
Proof. apply since_app; reflexivity. Qed.

Lemma since_two i reads tr i' reads' a b :
  since (facing i reads tr)
    (mkState i' (mkWorld reads' ((tr ++ [a]) ++ [b]))) = [a; b].
Proof.
  apply since_app; cbn [facing world trace]; rewrite <- app_assoc; reflexivity.
Qed.

Lemma no_LF_nil : ~ In 10%N [].
Proof. intros []. Qed.

(** X6: an empty answer to the prompt for the bucket, for the SNS topic or
    for the trail is accepted without asking the cloud: the field becomes
    the empty string, the only event is the prompt, and no error is
    returned, whatever the cloud would have answered. *)
Theorem X6_empty_answer_skips_existence_check
  (env : Env) (c : AwsClient) (i : AWSInput)
  (rest : list (gostring * option error)) (tr : list Event) :
  let s := facing i (line [] :: rest) tr in
  let bucket := cli_aws.receiveAndValidateBucketName env c s in
  let topic := cli_aws.receiveAndValidateSNSTopicArn env c s in
  let trail := cli_aws.receiveAndValidateCloudTrail env c s in
  (fst bucket = Ok tt
   /\ cfg (snd bucket) = store addr_Bucket [] i
   /\ Forall (fun ev => ~ existenceQuery ev) (since s (snd bucket))
   /\ stdin (world (snd bucket)) = rest)
  /\ (fst topic = Ok tt
      /\ cfg (snd topic) = store addr_SnsTopicArn [] i
      /\ Forall (fun ev => ~ existenceQuery ev) (since s (snd topic))
      /\ stdin (world (snd topic)) = rest)
  /\ (fst trail = Ok tt
      /\ cfg (snd trail) = store addr_CloudTrail_Name [] i
      /\ Forall (fun ev => ~ existenceQuery ev) (since s (snd trail))
      /\ stdin (world (snd trail)) = rest).
Proof.
  cbv zeta.
  pose proof (receiveAndValidateBucketName_line env c i rest tr _ no_LF_nil)
    as EB.
  pose proof (receiveAndValidateSNSTopicArn_line env c i rest tr _ no_LF_nil)
    as ES.
  pose proof (receiveAndValidateCloudTrail_line env c i rest tr _ no_LF_nil)
    as ET.
  cbv zeta in EB, ES, ET; cbn [streq] in EB, ES, ET.
  rewrite EB, ES, ET; cbn [fst snd cfg world stdin].
  rewrite !since_one.
  repeat split; repeat constructor; intros [].
Qed.

(** X7: a non-empty name that the cloud, asked through the client given,
    reports as existing is accepted by the check for the bucket, for the
    SNS topic and for the trail: the name is stored as typed, the cloud is
    asked once about that name, right after the prompt, and no error is
    returned. *)
Theorem X7_existing_name_is_accepted
  (env : Env) (c : AwsClient) (i : AWSInput)
  (rest : list (gostring * option error)) (tr : list Event)
  (name : gostring) :
  name <> [] -> ~ In 10%N name ->
  let s := facing i (line name :: rest) tr in
  let bucket := cli_aws.receiveAndValidateBucketName env c s in
  let topic := cli_aws.receiveAndValidateSNSTopicArn env c s in
  let trail := cli_aws.receiveAndValidateCloudTrail env c s in
  (bucketExists env c name = true ->
   fst bucket = Ok tt
   /\ cfg (snd bucket) = store addr_Bucket name i
   /\ since s (snd bucket)
      = [Printed (lit "enter default bucket (you can leave empty and a bucket with name functionclarity will be created): ");
         AskedBucket name true])
  /\ (snsTopicExists env c name = true ->
      fst topic = Ok tt
      /\ cfg (snd topic) = store addr_SnsTopicArn name i
      /\ since s (snd topic)
         = [Printed (lit "enter SNS arn if you would like to be notified when signature verification fails, otherwise press enter: ");
            AskedSnsTopic name true])
  /\ (cloudTrailExists env c name = true ->
      fst trail = Ok tt
      /\ cfg (snd trail) = store addr_CloudTrail_Name name i
      /\ since s (snd trail)
         = [Printed (lit "is there existing trail in CloudTrail (in the region selected above) which you would like to use? (if no, please press enter): ");
            AskedCloudTrail name true]).
Proof.
  intros Hne Hn; cbv zeta.
  pose proof (receiveAndValidateBucketName_line env c i rest tr _ Hn) as EB.
  pose proof (receiveAndValidateSNSTopicArn_line env c i rest tr _ Hn) as ES.
  pose proof (receiveAndValidateCloudTrail_line env c i rest tr _ Hn) as ET.
  cbv zeta in EB, ES, ET.
  rewrite (streq_neq Hne) in EB, ES, ET.
  rewrite EB, ES, ET; cbn [fst snd cfg].
  rewrite !since_two.
  split; [|split]; intros H; rewrite H; repeat split.
Qed.

(** X7 at an instance: a bucket that exists. *)
Lemma X7_existing_name_is_accepted_witness :
  let name := lit "my-bucket" in
  let c := mkAwsClient (lit "AKIA") (lit "secret") (lit "us-east-1") in
  let run :=
    cli_aws.receiveAndValidateBucketName allGood c
      (facing emptyInput [line name] []) in
  name <> []
  /\ ~ In 10%N name
  /\ bucketExists allGood c name = true
  /\ fst run = Ok tt
  /\ cfg (snd run) = store addr_Bucket name emptyInput.
Proof.
  cbv zeta.
  assert (Hne : lit "my-bucket" <> []) by discriminate.
  assert (Hn : ~ In 10%N (lit "my-bucket")).
  { cbn; intros H; repeat destruct H as [H|H]; try discriminate; exact H. }
  split; [exact Hne|]; split; [exact Hn|]; split; [reflexivity|].
  pose proof (proj1 (@X7_existing_name_is_accepted allGood
                       (mkAwsClient (lit "AKIA") (lit "secret")
                          (lit "us-east-1"))
                       emptyInput [] [] _ Hne Hn) eq_refl) as [HOk [Hc _]].
  split; [exact HOk | exact Hc].
Defined.

(** X8: when the cloud reports that the bucket, or the SNS topic, of the
    name entered does not exist, the check returns a validation error whose
    message names that resource; for the bucket, the topic and the trail
    alike the rejected name has been assigned before the cloud was asked
    and stays in the record. *)
Theorem X8_missing_name_is_rejected_and_kept
  (env : Env) (c : AwsClient) (i : AWSInput)
  (rest : list (gostring * option error)) (tr : list Event)
  (name : gostring) :
  name <> [] -> ~ In 10%N name ->
  let s := facing i (line name :: rest) tr in
  let bucket := cli_aws.receiveAndValidateBucketName env c s in
  let topic := cli_aws.receiveAndValidateSNSTopicArn env c s in
  let trail := cli_aws.receiveAndValidateCloudTrail env c s in
  (bucketExists env c name = false ->
   (exists msg,
      fst bucket = Err (Errorf msg) /\ ValidationError (Errorf msg)
      /\ strings.Contains msg (lit "bucket") = true)
   /\ Bucket (cfg (snd bucket)) = name
   /\ since s (snd bucket)
      = [Printed (lit "enter default bucket (you can leave empty and a bucket with name functionclarity will be created): ");
         AskedBucket name false])
  /\ (snsTopicExists env c name = false ->
      (exists msg,
         fst topic = Err (Errorf msg) /\ ValidationError (Errorf msg)
         /\ strings.Contains msg (lit "SNS topic") = true)
      /\ SnsTopicArn (cfg (snd topic)) = name
      /\ since s (snd topic)
         = [Printed (lit "enter SNS arn if you would like to be notified when signature verification fails, otherwise press enter: ");
            AskedSnsTopic name false])
  /\ (cloudTrailExists env c name = false ->
      (exists e, fst trail = Err e /\ ValidationError e)
      /\ Name (CloudTrail_ (cfg (snd trail))) = name).
Proof.
  intros Hne Hn; cbv zeta.
  pose proof (receiveAndValidateBucketName_line env c i rest tr _ Hn) as EB.
  pose proof (receiveAndValidateSNSTopicArn_line env c i rest tr _ Hn) as ES.
  pose proof (receiveAndValidateCloudTrail_line env c i rest tr _ Hn) as ET.
  cbv zeta in EB, ES, ET.
  rewrite (streq_neq Hne) in EB, ES, ET.
  rewrite EB, ES, ET; cbn [fst snd cfg].
  rewrite !since_two.
  split; [|split]; intros H; rewrite H.
  - split; [|split; reflexivity].
    eexists; split; [reflexivity|].
    split; [eexists; split; reflexivity | reflexivity].
  - split; [|split; reflexivity].
    eexists; split; [reflexivity|].
    split; [eexists; split; reflexivity | reflexivity].
  - split; [|reflexivity].
    eexists; split; [reflexivity|].
    eexists; split; reflexivity.
Qed.

(** X8 at an instance: a bucket that the cloud does not know. *)
Lemma X8_missing_name_is_rejected_and_kept_witness :
  let name := lit "lost-bucket" in
  let c := mkAwsClient (lit "AKIA") (lit "secret") (lit "us-east-1") in
  let run :=
    cli_aws.receiveAndValidateBucketName noBucket c
      (facing emptyInput [line name] []) in
  name <> []
  /\ ~ In 10%N name
  /\ bucketExists noBucket c name = false
  /\ Bucket (cfg (snd run)) = name.
Proof.
  cbv zeta.
  assert (Hne : lit "lost-bucket" <> []) by discriminate.
  assert (Hn : ~ In 10%N (lit "lost-bucket")).
  { cbn; intros H; repeat destruct H as [H|H]; try discriminate; exact H. }
  split; [exact Hne|]; split; [exact Hn|]; split; [reflexivity|].
  exact (proj1 (proj2 (proj1 (@X8_missing_name_is_rejected_and_kept noBucket
                       (mkAwsClient (lit "AKIA") (lit "secret")
                          (lit "us-east-1"))
                       emptyInput [] [] _ Hne Hn) eq_refl))).
Defined.

(** ** The key pair *)

(** X9: the prompts for the key pair.  On the empty line the public key
    becomes the empty string and the private key is not asked for: the
    next answer stays pending and [PrivateKey] is not assigned.  On a
    public key and a private key, both non-empty, both are asked for and
    stored as typed.  The two packages have the same function. *)
Theorem X9_key_pair_prompts
  (i : AWSInput) (rest : list (gostring * option error)) (tr : list Event)
  (pub priv : gostring) :
  pub <> [] -> ~ In 10%N pub -> priv <> [] -> ~ In 10%N priv ->
  let qpub := lit "enter path to custom public key for code signing? (if you want us to generate key pair, please press enter): " in
  let qpriv := lit "enter path to custom private key for code signing: " in
  let none := facing i (line [] :: rest) tr in
  let both := facing i (line pub :: line priv :: rest) tr in
  cli_aws.inputKeyPair none
  = (Ok tt, answered qpub (store addr_PublicKey [] i) none)
  /\ (let run := cli_aws.inputKeyPair both in
      fst run = Ok tt
      /\ cfg (snd run) = store addr_PrivateKey priv (store addr_PublicKey pub i)
      /\ stdin (world (snd run)) = rest
      /\ prompts (since both (snd run)) = [qpub; qpriv])
  /\ pkg_init.inputKeyPair none = cli_aws.inputKeyPair none
  /\ pkg_init.inputKeyPair both = cli_aws.inputKeyPair both.
Proof.
  intros Hpub Hpubn Hpriv Hprivn; cbv zeta.
  rewrite pkg_init_inputKeyPair.
  unfold cli_aws.inputKeyPair, bind.
  split; [|split; [|split; reflexivity]].
  - answer; cbn [negb andb outcome].
    unfold deref, ret; reflexivity.
  - answer; rewrite (TrimSuffix_no_LF _ Hpubn); cbn [negb andb outcome].
    unfold deref; cbn [cfg load store addr_PublicKey PublicKey].
    rewrite (streq_neq Hpub); cbn [negb].
    answer; rewrite (TrimSuffix_no_LF _ Hprivn), (streq_neq Hpriv).
    cbn [negb andb outcome fst snd cfg world stdin trace].
    unfold since, facing; cbn [world trace].
    rewrite <- app_assoc, skipn_app, skipn_all, Nat.sub_diag.
    repeat split.
Qed.

(** X9 at an instance: a key pair that the operator brings. *)
Lemma X9_key_pair_prompts_witness :
  let pub := lit "my.pub" in
  let priv := lit "my.key" in
  let run :=
    cli_aws.inputKeyPair (facing emptyInput [line pub; line priv] []) in
  pub <> [] /\ ~ In 10%N pub /\ priv <> [] /\ ~ In 10%N priv
  /\ fst run = Ok tt
  /\ cfg (snd run)
     = store addr_PrivateKey priv (store addr_PublicKey pub emptyInput).
Proof.
  cbv zeta.
  assert (Hpub : lit "my.pub" <> []) by discriminate.
  assert (Hpriv : lit "my.key" <> []) by discriminate.
  assert (Hpubn : ~ In 10%N (lit "my.pub")).
  { cbn; intros H; repeat destruct H as [H|H]; try discriminate; exact H. }
  assert (Hprivn : ~ In 10%N (lit "my.key")).
  { cbn; intros H; repeat destruct H as [H|H]; try discriminate; exact H. }
  split; [exact Hpub|]; split; [exact Hpubn|].
  split; [exact Hpriv|]; split; [exact Hprivn|].
  pose proof (proj1 (proj2 (@X9_key_pair_prompts emptyInput [] [] _ _
                               Hpub Hpubn Hpriv Hprivn)))
    as [HOk [Hc _]].
  split; [exact HOk | exact Hc].
Defined.

(** X10: finalization leaves a keyless record and a record that has a
    public key exactly as they are, without generating anything; and run
    again on the state it produced without error, it changes nothing and
    generates nothing: at most one key pair is ever generated for a
    record. *)
Theorem X10_finalization_is_idempotent (env : Env) (s s1 : State) :
  (IsKeyless (cfg s) = true \/ PublicKey (cfg s) <> [] ->
   cli_aws.digestParameters env s = (Ok tt, s)
   /\ pkg_init.digestParameters env s = (Ok tt, s))
  /\ (cli_aws.digestParameters env s = (Ok tt, s1) ->
      cli_aws.digestParameters env s1 = (Ok tt, s1))
  /\ (pkg_init.digestParameters env s = (Ok tt, s1) ->
      pkg_init.digestParameters env s1 = (Ok tt, s1)).
Proof.
  assert (noop : forall s0,
             IsKeyless (cfg s0) = true \/ PublicKey (cfg s0) <> [] ->
             cli_aws.digestParameters env s0 = (Ok tt, s0)).
  { intros s0 H; rewrite digestParameters_run.
    destruct H as [-> | H]; [cbn [negb]; rewrite andb_false_r; reflexivity|].
    rewrite (streq_neq H); reflexivity. }
  assert (again : cli_aws.digestParameters env s = (Ok tt, s1) ->
                  cli_aws.digestParameters env s1 = (Ok tt, s1)).
  { intros H; pose proof H as H'; rewrite digestParameters_run in H'.
    destruct (streq (PublicKey (cfg s)) [] && negb (IsKeyless (cfg s)))
      eqn:C.
    - destruct (generateKeyPair env); [discriminate|].
      assert (E : s1 = after (GeneratedKeyPair None)
                         (store addr_PrivateKey (lit "cosign.key")
                            (store addr_PublicKey (lit "cosign.pub")
                               (cfg s))) s) by congruence.
      apply noop; right; rewrite E; discriminate.
    - assert (E : s1 = s) by congruence.
      rewrite E in H |- *; exact H. }
  split; [|split].
  - intros H; rewrite (pkg_init_digestParameters env s).
    split; apply noop, H.
  - exact again.
  - rewrite (pkg_init_digestParameters env s).
    rewrite (pkg_init_digestParameters env s1); exact again.
Qed.

(** X10 at an instance: the record right after a key pair was generated
    for it. *)
Lemma X10_finalization_is_idempotent_witness :
  let s := start emptyInput [] in
  let s1 := snd (cli_aws.digestParameters allGood s) in
  cli_aws.digestParameters allGood s = (Ok tt, s1)
  /\ cli_aws.digestParameters allGood s1 = (Ok tt, s1)
  /\ generations (trace (world s1)) = 1.
Proof.
  cbv zeta.
  assert (H : cli_aws.digestParameters allGood (start emptyInput [])
              = (Ok tt,
                 snd (cli_aws.digestParameters allGood (start emptyInput []))))
    by reflexivity.
  split; [exact H|].
  split; [|reflexivity].
  exact (proj1 (proj2 (X10_finalization_is_idempotent allGood _ _)) H).
Defined.

(** * Further properties of the wizard as a whole *)

(** ** Sequencing, again *)

Lemma bind_inv {A B : Type} (m : M A) (f : A -> M B) s r s' :
  bind m f s = (r, s') ->
  (exists e, m s = (Err e, s') /\ r = Err e)
  \/ (exists a s1, m s = (Ok a, s1) /\ f a s1 = (r, s')).
Proof.
  unfold bind; destruct (m s) as [[a|e] s1]; intros H.
  - right; exists a, s1; split; [reflexivity | exact H].
  - left; exists e; inversion H; subst; split; reflexivity.
Qed.

(** A step of a sequence, seen from its start [s0]: it has stopped the
    sequence with an error, or the sequence goes on; either way the
    history goes on with events that satisfy [P]. *)
Lemma stop_or_go {A B : Type} P (m : M A) (f : A -> M B) s0 s r s' :
  extends P s0 s -> emits P m -> bind m f s = (r, s') ->
  ((exists e, r = Err e) /\ extends P s0 s')
  \/ (exists a s1, m s = (Ok a, s1) /\ extends P s0 s1 /\ f a s1 = (r, s')).
Proof.
  intros X Em H.
  destruct (bind_inv _ _ _ H) as [(e & H1 & ->) | (a & s1 & H1 & H2)].
  - left; split; [exists e; reflexivity|].
    eapply extends_trans; [exact X | eapply Em, H1].
  - right; exists a, s1; split; [exact H1|]; split; [|exact H2].
    eapply extends_trans; [exact X | eapply Em, H1].
Qed.

Lemma not_in_extension P s s' ev :
  extends P s s' -> In ev (since s s') -> P ev.
Proof.
  intros X Hin; apply extends_since in X.
  rewrite Forall_forall in X; exact (X _ Hin).
Qed.

(** ** What each function leaves alone in the record *)

Lemma keeps_ret {T A : Type} (f : AWSInput -> T) (a : A) : keeps f (ret a).
Proof. intros s r s' H; inversion H; reflexivity. Qed.

Lemma keeps_fail {T A : Type} (f : AWSInput -> T) e : keeps f (@fail A e).
Proof. intros s r s' H; inversion H; reflexivity. Qed.

Lemma keeps_bind {T A B : Type} (f : AWSInput -> T) (m : M A) (k : A -> M B) :
  keeps f m -> (forall a, keeps f (k a)) -> keeps f (bind m k).
Proof.
  intros Hm Hk s r s' H.
  destruct (bind_inv _ _ _ H) as [(e & H1 & _) | (a & s1 & H1 & H2)].
  - exact (Hm _ _ _ H1).
  - rewrite (Hk _ _ _ _ H2); exact (Hm _ _ _ H1).
Qed.

Lemma keeps_emit {T : Type} (f : AWSInput -> T) ev : keeps f (emit ev).
Proof. intros s r s' H; inversion H; reflexivity. Qed.

Lemma keeps_assign {T U : Type} (f : AWSInput -> U) (p : ptr T) v :
  apart f p -> keeps f (assign p v).
Proof. intros Hp s r s' H; inversion H; apply Hp. Qed.

Lemma keeps_deref {T U : Type} (f : AWSInput -> U) (p : ptr T) :
  keeps f (deref p).
Proof. intros s r s' H; inversion H; reflexivity. Qed.

Lemma keeps_ReadString {T : Type} (f : AWSInput -> T) : keeps f ReadString.
Proof.
  intros s r s'; unfold ReadString.
  destruct (stdin (world s)); intros H; inversion H; reflexivity.
Qed.

Lemma keeps_return_ {T : Type} (f : AWSInput -> T) err :
  keeps f (return_ err).
Proof. destruct err; [apply keeps_fail | apply keeps_ret]. Qed.

Lemma keeps_for_ {T A : Type} (f : AWSInput -> T) (l : list A) body :
  (forall x, keeps f (body x)) -> keeps f (for_ l body).
Proof.
  intros Hb; induction l as [|x l IH]; simpl.
  - apply keeps_ret.
  - apply keeps_bind; [apply Hb | intros _; exact IH].
Qed.

Ltac keeps_step :=
  first
    [ apply keeps_ret
    | apply keeps_fail
    | apply keeps_return_
    | apply keeps_emit
    | apply keeps_deref
    | apply keeps_ReadString
    | apply keeps_assign; first [assumption | intros ? ?; reflexivity]
    | apply keeps_bind; [|intros ?]
    | apply keeps_for_; intros ?
    | match goal with
      | |- keeps _ (if ?b then _ else _) => destruct b
      | |- keeps _ (match ?x with _ => _ end) => destruct x
      end ].

Section Keeps.
Context {T : Type}.
Variable f : AWSInput -> T.

Lemma keeps_inputStringParameter q p em :
  apart f p -> keeps f (cli_aws.inputStringParameter q p em).
Proof.
  intros Hp; unfold cli_aws.inputStringParameter, fmt.Print.
  cbv zeta; repeat keeps_step.
Qed.

Lemma keeps_inputStringArrayParameter q p em :
  apart f p -> keeps f (cli_aws.inputStringArrayParameter q p em).
Proof.
  intros Hp; unfold cli_aws.inputStringArrayParameter, fmt.Print.
  cbv zeta; repeat keeps_step.
Qed.

Lemma keeps_inputYesNoParameter q p em :
  apart f p -> keeps f (cli_aws.inputYesNoParameter q p em).
Proof.
  intros Hp; unfold cli_aws.inputYesNoParameter, fmt.Print.
  cbv zeta; repeat keeps_step.
Qed.

Lemma keeps_inputMultipleChoiceParameter action p m em :
  apart f p -> keeps f (cli_aws.inputMultipleChoiceParameter action p m em).
Proof.
  intros Hp; unfold cli_aws.inputMultipleChoiceParameter, fmt.Print.
  cbv zeta; repeat keeps_step.
Qed.

Lemma keeps_inputKeyPair :
  apart f addr_PublicKey -> apart f addr_PrivateKey ->
  keeps f cli_aws.inputKeyPair.
Proof.
  intros Hpub Hpriv; unfold cli_aws.inputKeyPair.
  repeat first [apply keeps_inputStringParameter; assumption | keeps_step].
Qed.

Lemma keeps_receiveAndValidateCredentials env :
  apart f addr_AccessKey -> apart f addr_SecretKey -> apart f addr_Region ->
  keeps f (cli_aws.receiveAndValidateCredentials env).
Proof.
  intros Hak Hsk Hrg.
  unfold cli_aws.receiveAndValidateCredentials, clients.ValidateCredentials.
  cbv zeta.
  repeat first [apply keeps_inputStringParameter; assumption | keeps_step].
Qed.

Lemma keeps_receiveAndValidateBucketName env c :
  apart f addr_Bucket -> keeps f (cli_aws.receiveAndValidateBucketName env c).
Proof.
  intros Hp.
  unfold cli_aws.receiveAndValidateBucketName, andThen,
    clients.IsBucketExist.
  repeat first [apply keeps_inputStringParameter; assumption | keeps_step].
Qed.

Lemma keeps_receiveAndValidateSNSTopicArn env c :
  apart f addr_SnsTopicArn ->
  keeps f (cli_aws.receiveAndValidateSNSTopicArn env c).
Proof.
  intros Hp.
  unfold cli_aws.receiveAndValidateSNSTopicArn, andThen,
    clients.IsSnsTopicExist.
  repeat first [apply keeps_inputStringParameter; assumption | keeps_step].
Qed.

Lemma keeps_receiveAndValidateCloudTrail env c :
  apart f addr_CloudTrail_Name ->
  keeps f (cli_aws.receiveAndValidateCloudTrail env c).
Proof.
  intros Hp.
  unfold cli_aws.receiveAndValidateCloudTrail, andThen,
    clients.IsCloudTrailExist.
  repeat first [apply keeps_inputStringParameter; assumption | keeps_step].
Qed.

Lemma keeps_digestParameters env :
  apart f addr_PublicKey -> apart f addr_PrivateKey ->
  keeps f (cli_aws.digestParameters env).
Proof.
  intros Hpub Hpriv.
  unfold cli_aws.digestParameters, generate.GenerateKeyPairCmd.
  repeat keeps_step.
Qed.

End Keeps.

Ltac keeps_wizard :=
  repeat first
    [ apply keeps_inputStringParameter; intros ? ?; reflexivity
    | apply keeps_inputStringArrayParameter; intros ? ?; reflexivity
    | apply keeps_inputYesNoParameter; intros ? ?; reflexivity
    | apply keeps_inputMultipleChoiceParameter; intros ? ?; reflexivity
    | apply keeps_inputKeyPair; intros ? ?; reflexivity
    | apply keeps_receiveAndValidateBucketName; intros ? ?; reflexivity
    | apply keeps_receiveAndValidateSNSTopicArn; intros ? ?; reflexivity
    | apply keeps_receiveAndValidateCloudTrail; intros ? ?; reflexivity
    | apply keeps_receiveAndValidateCredentials; intros ? ?; reflexivity
    | apply keeps_digestParameters; intros ? ?; reflexivity
    | keeps_step ].

(** ** The cloud *)

(** X11: the earlier wizard of [pkg/init] never asks the cloud: the
    history of any of its runs holds prompts and key generations only, and
    the run is the same whatever the cloud would answer. *)
Theorem X11_earlier_wizard_never_asks_the_cloud
  (env env' : Env) (s s' : State) (r : result unit) :
  pkg_init.ReceiveParameters env s = (r, s') ->
  Forall promptOrGeneration (since s s')
  /\ (generateKeyPair env' = generateKeyPair env ->
      pkg_init.ReceiveParameters env' s = (r, s')).
Proof.
  intros H; split.
  - apply extends_since with (P := promptOrGeneration).
    revert H; generalize s r s'.
    change (emits promptOrGeneration (pkg_init.ReceiveParameters env)).
    unfold pkg_init.ReceiveParameters.
    repeat first
      [ apply emits_inputStringParameter; intros; exact I
      | apply emits_inputYesNoParameter; intros; exact I
      | apply emits_inputKeyPair; intros; exact I
      | apply (@emits_digestParameters promptOrGeneration); intros; exact I
      | apply emits_emit; exact I
      | emits_step ].
  - intros G; rewrite <- H.
    unfold pkg_init.ReceiveParameters, pkg_init.digestParameters,
      generate.GenerateKeyPairCmd.
    rewrite G; reflexivity.
Qed.

(** X11 at an instance: the earlier wizard run against a cloud that would
    refuse the credentials. *)
Lemma X11_earlier_wizard_never_asks_the_cloud_witness :
  let s :=
    start emptyInput
      [line (lit "AKIA"); line (lit "wrong"); line (lit "nowhere");
       line (lit "lost-bucket"); line []; line []; line (lit "y")] in
  let run := pkg_init.ReceiveParameters badCredentials s in
  run = (fst run, snd run)
  /\ generateKeyPair allGood = generateKeyPair badCredentials
  /\ pkg_init.ReceiveParameters allGood s = (fst run, snd run)
  /\ fst run = Ok tt.
Proof.
  cbv zeta.
  match goal with
  | |- ?run = _ /\ _ =>
      assert (H : run = (fst run, snd run)) by apply surjective_pairing
  end.
  split; [exact H|]; split; [reflexivity|].
  split; [|reflexivity].
  exact (proj2 (@X11_earlier_wizard_never_asks_the_cloud badCredentials
                  allGood _ _ _ H) eq_refl).
Defined.

(** Credentials that were accepted: the client returned is the one built
    from the three fields, and the cloud has said yes to it. *)
Lemma credentials_accepted env s c s1 :
  cli_aws.receiveAndValidateCredentials env s = (Ok c, s1) ->
  c = clients.NewAwsClientInit (AccessKey (cfg s1)) (SecretKey (cfg s1))
        (Region (cfg s1))
  /\ validateCredentials env c = true
  /\ In (AskedCredentials c true) (since s s1).
Proof.
  intros H.
  destruct (credentials_outcome _ _ H) as [[O _] | [[O T] | [[e O] _]]];
    try discriminate.
  injection O as ->.
  split; [reflexivity|].
  split.
  - unfold cli_aws.receiveAndValidateCredentials in H.
    do 6 (apply bind_Ok in H; destruct H as (? & ? & _ & H)).
    unfold clients.ValidateCredentials in H.
    apply bind_Ok in H; destruct H as (b & s7 & H7 & H).
    apply bind_Ok in H7; destruct H7 as (? & ? & _ & H7).
    unfold ret in H7; injection H7 as Hb _.
    destruct b; [|discriminate].
    unfold ret in H; cbn [negb] in H.
    match type of Hb with
    | validateCredentials env ?c0 = true =>
        assert (Hc : c0 = clients.NewAwsClientInit (AccessKey (cfg s1))
                            (SecretKey (cfg s1)) (Region (cfg s1)))
          by congruence
    end.
    rewrite <- Hc; exact Hb.
  - rewrite (since_app s s1 _ T).
    right; right; right; left; reflexivity.
Qed.

(** X12: the wizard asks the cloud about a bucket, an SNS topic or a trail
    only in a run in which it has asked about the credentials before and
    the cloud has accepted them. *)
Theorem X12_existence_queries_follow_accepted_credentials
  (env : Env) (s s' : State) (r : result unit) (ev : Event) :
  cli_aws.ReceiveParameters env s = (r, s') ->
  In ev (since s s') -> existenceQuery ev ->
  exists c before later,
    since s s' = before ++ AskedCredentials c true :: later
    /\ Forall (fun ev' => ~ existenceQuery ev') before
    /\ validateCredentials env c = true.
Proof.
  intros H Hin Hev.
  unfold cli_aws.ReceiveParameters in H.
  destruct (bind_inv _ _ _ H) as [(e & H1 & _) | (c & s1 & H1 & H2)].
  - exfalso.
    assert (Em : emits (fun ev' => ~ existenceQuery ev')
                   (cli_aws.receiveAndValidateCredentials env)).
    { apply emits_receiveAndValidateCredentials; intros; intros []. }
    exact (@not_in_extension _ s s' ev (Em _ _ _ H1) Hin Hev).
  - destruct (@credentials_accepted env s c s1 H1) as [_ [V _]].
    destruct (credentials_outcome _ _ H1) as [[O _] | [[O T] | [[e O] _]]];
      try discriminate.
    injection O as Hc.
    match type of H2 with
    | ?m s1 = _ =>
        assert (Em : emits (fun _ => True) m) by emits_wizard
    end.
    destruct (Em _ _ _ H2) as [evs [T' _]].
    rewrite T, <- app_assoc in T'.
    rewrite (since_app s s' _ T').
    exists c,
      [Printed (lit "enter Access Key: "); Printed (lit "enter Secret Key: ");
       Printed (lit "enter region: ")], evs.
    split; [rewrite Hc; reflexivity|].
    split; [repeat constructor; intros []|exact V].
Qed.

(** X12 at an instance: a run stopped by a bucket the cloud does not
    know. *)
Lemma X12_existence_queries_follow_accepted_credentials_witness :
  let s :=
    start emptyInput
      [line (lit "AKIA"); line (lit "secret"); line (lit "us-east-1");
       line (lit "lost-bucket")] in
  let run := cli_aws.ReceiveParameters noBucket s in
  let c := mkAwsClient (lit "AKIA") (lit "secret") (lit "us-east-1") in
  run = (fst run, snd run)
  /\ In (AskedBucket (lit "lost-bucket") false) (since s (snd run))
  /\ existenceQuery (AskedBucket (lit "lost-bucket") false)
  /\ exists c before later,
       since s (snd run) = before ++ AskedCredentials c true :: later
       /\ Forall (fun ev' => ~ existenceQuery ev') before
       /\ validateCredentials noBucket c = true.
Proof.
  cbv zeta.
  match goal with
  | |- ?run = _ /\ In ?ev (since ?s _) /\ _ =>
      assert (H : run = (fst run, snd run)) by apply surjective_pairing;
      assert (Hin : In ev (since s (snd run)))
        by (vm_compute; repeat (first [left; reflexivity | right]))
  end.
  split; [exact H|]; split; [exact Hin|]; split; [exact I|].
  exact (@X12_existence_queries_follow_accepted_credentials _ _ _ _ _ H Hin I).
Defined.

(** ** Key generation in the wizard *)

Lemma digest_noop env s :
  IsKeyless (cfg s) = true \/ PublicKey (cfg s) <> [] ->
  cli_aws.digestParameters env s = (Ok tt, s).
Proof.
  intros H; rewrite digestParameters_run.
  destruct H as [-> | H]; [cbn [negb]; rewrite andb_false_r; reflexivity|].
  rewrite (streq_neq H); reflexivity.
Qed.

(** A finalization whose generator failed, after steps that generated
    nothing. *)
Lemma digest_failure env s mid r s' e :
  extends notGeneration s mid ->
  cli_aws.digestParameters env mid = (r, s') ->
  In (GeneratedKeyPair (Some e)) (since s s') ->
  r = Err e
  /\ generateKeyPair env = Some e
  /\ IsKeyless (cfg s') = false
  /\ PublicKey (cfg s') = []
  /\ generations (since s s') = 1.
Proof.
  intros [evs [T F]] D Hin.
  rewrite digestParameters_run in D.
  destruct (streq (PublicKey (cfg mid)) []) eqn:Epk;
    [destruct (IsKeyless (cfg mid)) eqn:Ekl|]; cbn [negb andb] in D.
  - exfalso.
    assert (Es : s' = mid) by congruence; subst s'.
    assert (X : extends notGeneration s mid) by (exists evs; auto).
    exact (@not_in_extension notGeneration s mid _ X Hin).
  - assert (T' : forall o i',
               trace (world (after (GeneratedKeyPair o) i' mid))
               = trace (world s) ++ evs ++ [GeneratedKeyPair o]).
    { intros o i'; unfold after; cbn [world trace].
      rewrite T, app_assoc; reflexivity. }
    destruct (generateKeyPair env) as [e0|] eqn:G.
    + assert (Es : s' = after (GeneratedKeyPair (Some e0)) (cfg mid) mid)
        by congruence.
      assert (Er : r = Err e0) by congruence.
      rewrite Es in Hin |- *; rewrite (since_app s _ _ (T' _ _)) in Hin |- *.
      apply in_app_or in Hin; destruct Hin as [Hin | [Hin | []]].
      * exfalso; rewrite Forall_forall in F; exact (F _ Hin).
      * injection Hin as ->.
        rewrite generations_snoc, (generations_none F).
        unfold after; cbn [cfg].
        apply streq_eq in Epk; repeat split; assumption.
    + exfalso.
      assert (Es : s' = after (GeneratedKeyPair None)
                          (store addr_PrivateKey (lit "cosign.key")
                             (store addr_PublicKey (lit "cosign.pub")
                                (cfg mid))) mid) by congruence.
      rewrite Es, (since_app s _ _ (T' _ _)) in Hin.
      apply in_app_or in Hin; destruct Hin as [Hin | [Hin | []]].
      * rewrite Forall_forall in F; exact (F _ Hin).
      * discriminate.
  - exfalso.
    assert (Es : s' = mid) by congruence; subst s'.
    assert (X : extends notGeneration s mid) by (exists evs; auto).
    exact (@not_in_extension notGeneration s mid _ X Hin).
Qed.

Ltac advance s s' Hin :=
  repeat match goal with
         | H : bind ?m ?f ?s1 = (_, s'), X : extends notGeneration s ?s1
           |- _ =>
             let Em := fresh "Em" in
             assert (Em : emits notGeneration m) by emits_wizard;
             destruct (@stop_or_go _ _ notGeneration m f s s1 _ s' X Em H)
               as [[_ ?] | (? & ? & _ & ? & ?)];
             clear Em H X;
             [ exfalso;
               match goal with
               | X' : extends notGeneration s s' |- _ =>
                   exact (@not_in_extension notGeneration s s' _ X' Hin)
               end
             | ]
         end.

(** X13: in a run of either wizard in which the key generator is called
    and fails, the wizard returns the generator's error; the generator was
    called once, for a record that is not keyless, and the record is left
    without a public key. *)
Theorem X13_generator_failure_is_returned
  (env : Env) (s s' : State) (r : result unit) (e : error) :
  In (GeneratedKeyPair (Some e)) (since s s') ->
  (cli_aws.ReceiveParameters env s = (r, s') ->
   r = Err e /\ generateKeyPair env = Some e
   /\ IsKeyless (cfg s') = false /\ PublicKey (cfg s') = []
   /\ generations (since s s') = 1)
  /\ (pkg_init.ReceiveParameters env s = (r, s') ->
      r = Err e /\ generateKeyPair env = Some e
      /\ IsKeyless (cfg s') = false /\ PublicKey (cfg s') = []
      /\ generations (since s s') = 1).
Proof.
  intros Hin.
  assert (X0 : extends notGeneration s s) by apply extends_refl.
  split; intros H.
  - unfold cli_aws.ReceiveParameters in H.
    advance s s' Hin.
    match goal with
    | X : extends notGeneration s ?mid, D : cli_aws.digestParameters _ _ = _
      |- _ => exact (@digest_failure env s mid r s' e X D Hin)
    end.
  - unfold pkg_init.ReceiveParameters in H.
    advance s s' Hin.
    match goal with
    | X : extends notGeneration s ?mid, D : pkg_init.digestParameters _ _ = _
      |- _ =>
        rewrite pkg_init_digestParameters in D;
        exact (@digest_failure env s mid r s' e X D Hin)
    end.
Qed.

(** X13 at an instance: a generator that fails, for an operator who
    declines the keyless mode and gives no public key. *)
Lemma X13_generator_failure_is_returned_witness :
  let s :=
    start emptyInput
      [line (lit "AKIA"); line (lit "secret"); line (lit "us-east-1");
       line []; line []; line []; line []; line []; line [];
       line (lit "n"); line []] in
  let run := cli_aws.ReceiveParameters noKeys s in
  let e := Foreign (lit "no entropy") in
  In (GeneratedKeyPair (Some e)) (since s (snd run))
  /\ run = (fst run, snd run)
  /\ fst run = Err e
  /\ PublicKey (cfg (snd run)) = [].
Proof.
  cbv zeta.
  match goal with
  | |- In ?ev (since ?s (snd ?run)) /\ _ =>
      assert (Hin : In ev (since s (snd run)))
        by (vm_compute; repeat (first [left; reflexivity | right]));
      assert (H : run = (fst run, snd run)) by apply surjective_pairing
  end.
  split; [exact Hin|]; split; [exact H|].
  pose proof (proj1 (@X13_generator_failure_is_returned noKeys _ _ _ _ Hin) H)
    as [Hr [_ [_ [Hp _]]]].
  split; [exact Hr | exact Hp].
Defined.

(** ** The keyless mode *)

Lemma keysUntouched_refl s : keysUntouched s s.
Proof. split; [apply extends_refl | split; reflexivity]. Qed.

Lemma keysUntouched_trans s1 s2 s3 :
  keysUntouched s1 s2 -> keysUntouched s2 s3 -> keysUntouched s1 s3.
Proof.
  intros [X1 [P1 Q1]] [X2 [P2 Q2]]; split; [|split].
  - eapply extends_trans; eassumption.
  - rewrite P2; exact P1.
  - rewrite Q2; exact Q1.
Qed.

Lemma keysUntouched_step {A : Type} (m : M A) s r s' :
  emits notGeneration m -> keeps PublicKey m -> keeps PrivateKey m ->
  m s = (r, s') -> keysUntouched s s'.
Proof.
  intros Em Kpub Kpriv H; split; [|split].
  - exact (Em _ _ _ H).
  - exact (Kpub _ _ _ H).
  - exact (Kpriv _ _ _ H).
Qed.

Lemma keysUntouched_outcome s s' :
  keysUntouched s s' ->
  generations (since s s') = 0
  /\ PublicKey (cfg s') = PublicKey (cfg s)
  /\ PrivateKey (cfg s') = PrivateKey (cfg s).
Proof.
  intros [X [P Q]]; split; [|split; assumption].
  apply generations_none, extends_since, X.
Qed.

Ltac ahead s s' :=
  repeat match goal with
         | H : bind ?m ?f ?s1 = (_, s'), X : keysUntouched s ?s1 |- _ =>
             let Em := fresh "Em" in
             let Kpub := fresh "Kpub" in
             let Kpriv := fresh "Kpriv" in
             assert (Em : emits notGeneration m) by emits_wizard;
             assert (Kpub : keeps PublicKey m) by keeps_wizard;
             assert (Kpriv : keeps PrivateKey m) by keeps_wizard;
             destruct (@bind_inv _ _ m f s1 _ s' H)
               as [(? & ?H1 & _) | (? & ? & ?H1 & ?)];
             [ apply keysUntouched_outcome;
               apply (@keysUntouched_trans s s1 s' X);
               eapply (@keysUntouched_step _ m); eassumption
             | match goal with
               | H1 : m s1 = (Ok _, ?s2) |- _ =>
                   pose proof (@keysUntouched_trans s s1 s2 X
                                 (@keysUntouched_step _ m s1 _ s2 Em Kpub
                                    Kpriv H1))
               end;
               clear Em Kpub Kpriv H X ]
         end.

(** X14: a run of either wizard, however it ends, that leaves the record
    keyless has generated no key pair and has assigned neither
    [PublicKey] nor [PrivateKey]. *)
Theorem X14_keyless_run_leaves_the_keys_alone
  (env : Env) (s s' : State) (r : result unit) :
  IsKeyless (cfg s') = true ->
  (cli_aws.ReceiveParameters env s = (r, s') ->
   generations (since s s') = 0
   /\ PublicKey (cfg s') = PublicKey (cfg s)
   /\ PrivateKey (cfg s') = PrivateKey (cfg s))
  /\ (pkg_init.ReceiveParameters env s = (r, s') ->
      generations (since s s') = 0
      /\ PublicKey (cfg s') = PublicKey (cfg s)
      /\ PrivateKey (cfg s') = PrivateKey (cfg s)).
Proof.
  intros Hk.
  assert (X0 : keysUntouched s s) by apply keysUntouched_refl.
  assert (last : forall a mid (digest : M unit),
             keysUntouched s mid ->
             deref addr_IsKeyless mid = (Ok a, mid) ->
             keeps IsKeyless digest ->
             (forall s0, IsKeyless (cfg s0) = true ->
                         digest s0 = (Ok tt, s0)) ->
             ((if negb a then cli_aws.inputKeyPair else ret tt) ;; digest)
               mid = (r, s') ->
             generations (since s s') = 0
             /\ PublicKey (cfg s') = PublicKey (cfg s)
             /\ PrivateKey (cfg s') = PrivateKey (cfg s)).
  { intros a mid digest X Ha Kd Noop H.
    unfold deref in Ha; cbn [load addr_IsKeyless] in Ha.
    assert (Ea : a = IsKeyless (cfg mid)) by congruence.
    destruct a; cbn [negb] in H.
    - unfold bind, ret in H.
      rewrite (Noop mid (eq_sym Ea)) in H.
      assert (Es : s' = mid) by congruence.
      rewrite Es; apply keysUntouched_outcome, X.
    - exfalso.
      assert (K : keeps IsKeyless (cli_aws.inputKeyPair ;; digest)).
      { apply keeps_bind; [|intros _; exact Kd].
        apply keeps_inputKeyPair; intros ? ?; reflexivity. }
      rewrite (K _ _ _ H), <- Ea in Hk; discriminate. }
  split; intros H.
  - unfold cli_aws.ReceiveParameters in H.
    ahead s s'.
    match goal with
    | X : keysUntouched s ?mid,
      D : deref addr_IsKeyless _ = (Ok ?a, ?mid),
      H' : bind _ _ ?mid = (r, s') |- _ =>
        apply (last a mid (cli_aws.digestParameters env) X);
        [ unfold deref in *; congruence
        | apply keeps_digestParameters; intros ? ?; reflexivity
        | intros sn Hsn; apply digest_noop; left; exact Hsn
        | exact H' ]
    end.
  - unfold pkg_init.ReceiveParameters in H.
    ahead s s'.
    match goal with
    | X : keysUntouched s ?mid,
      D : deref addr_IsKeyless _ = (Ok ?a, ?mid),
      H' : bind _ _ ?mid = (r, s') |- _ =>
        apply (last a mid (pkg_init.digestParameters env) X);
        [ unfold deref in *; congruence
        | intros sn rn sn' Hsn; rewrite pkg_init_digestParameters in Hsn;
          revert Hsn; apply keeps_digestParameters; intros ? ?; reflexivity
        | intros sn Hsn; rewrite pkg_init_digestParameters;
          apply digest_noop; left; exact Hsn
        | exact H' ]
    end.
Qed.

(** X14 at an instance: the operator chooses the keyless mode. *)
Lemma X14_keyless_run_leaves_the_keys_alone_witness :
  let s :=
    start emptyInput
      [line (lit "AKIA"); line (lit "secret"); line (lit "us-east-1");
       line []; line []; line []; line []; line []; line [];
       line (lit "Y")] in
  let run := cli_aws.ReceiveParameters allGood s in
  IsKeyless (cfg (snd run)) = true
  /\ run = (fst run, snd run)
  /\ generations (since s (snd run)) = 0
  /\ PublicKey (cfg (snd run)) = PublicKey (cfg s).
Proof.
  cbv zeta.
  match goal with
  | |- IsKeyless (cfg (snd ?run)) = true /\ _ =>
      assert (Hk : IsKeyless (cfg (snd run)) = true) by reflexivity;
      assert (H : run = (fst run, snd run)) by apply surjective_pairing
  end.
  split; [exact Hk|]; split; [exact H|].
  pose proof (proj1 (@X14_keyless_run_leaves_the_keys_alone allGood _ _ _ Hk)
                H) as [G [P _]].
  split; [exact G | exact P].
Defined.

(** ** The record that the wizard returns *)

Lemma bucket_checked env c s s1 :
  cli_aws.receiveAndValidateBucketName env c s = (Ok tt, s1) ->
  Bucket (cfg s1) = [] \/ bucketExists env c (Bucket (cfg s1)) = true.
Proof.
  unfold cli_aws.receiveAndValidateBucketName; intros H.
  apply bind_Ok in H; destruct H as (? & sa & _ & H).
  apply bind_Ok in H; destruct H as (name & sb & Hd & H).
  apply bind_Ok in H; destruct H as (cnd & sc & Hc & H).
  unfold deref in Hd; cbn [load addr_Bucket] in Hd.
  destruct cnd; [discriminate|].
  unfold ret in H.
  assert (E1 : s1 = sc) by congruence.
  assert (E2 : sb = sa) by congruence.
  assert (E3 : name = Bucket (cfg sa)) by congruence.
  unfold andThen in Hc.
  destruct (streq name []) eqn:En; cbn [negb] in Hc.
  - unfold ret in Hc.
    assert (E4 : sc = sb) by congruence.
    left; apply streq_eq in En; congruence.
  - unfold clients.IsBucketExist, bind, emit, ret in Hc.
    cbn [cfg world] in Hc.
    assert (Hb : negb (bucketExists env c name) = false) by congruence.
    assert (E4 : cfg sc = cfg sb) by (injection Hc as _ <-; reflexivity).
    right; apply negb_false_iff in Hb; congruence.
Qed.

Lemma topic_checked env c s s1 :
  cli_aws.receiveAndValidateSNSTopicArn env c s = (Ok tt, s1) ->
  SnsTopicArn (cfg s1) = []
  \/ snsTopicExists env c (SnsTopicArn (cfg s1)) = true.
Proof.
  unfold cli_aws.receiveAndValidateSNSTopicArn; intros H.
  apply bind_Ok in H; destruct H as (? & sa & _ & H).
  apply bind_Ok in H; destruct H as (name & sb & Hd & H).
  apply bind_Ok in H; destruct H as (cnd & sc & Hc & H).
  unfold deref in Hd; cbn [load addr_SnsTopicArn] in Hd.
  destruct cnd; [discriminate|].
  unfold ret in H.
  assert (E1 : s1 = sc) by congruence.
  assert (E2 : sb = sa) by congruence.
  assert (E3 : name = SnsTopicArn (cfg sa)) by congruence.
  unfold andThen in Hc.
  destruct (streq name []) eqn:En; cbn [negb] in Hc.
  - unfold ret in Hc.
    assert (E4 : sc = sb) by congruence.
    left; apply streq_eq in En; congruence.
  - unfold clients.IsSnsTopicExist, bind, emit, ret in Hc.
    cbn [cfg world] in Hc.
    assert (Hb : negb (snsTopicExists env c name) = false) by congruence.
    assert (E4 : cfg sc = cfg sb) by (injection Hc as _ <-; reflexivity).
    right; apply negb_false_iff in Hb; congruence.
Qed.

Lemma trail_checked env c s s1 :
  cli_aws.receiveAndValidateCloudTrail env c s = (Ok tt, s1) ->
  Name (CloudTrail_ (cfg s1)) = []
  \/ cloudTrailExists env c (Name (CloudTrail_ (cfg s1))) = true.
Proof.
  unfold cli_aws.receiveAndValidateCloudTrail; intros H.
  apply bind_Ok in H; destruct H as (? & sa & _ & H).
  apply bind_Ok in H; destruct H as (name & sb & Hd & H).
  apply bind_Ok in H; destruct H as (cnd & sc & Hc & H).
  unfold deref in Hd; cbn [load addr_CloudTrail_Name] in Hd.
  destruct cnd; [discriminate|].
  unfold ret in H.
  assert (E1 : s1 = sc) by congruence.
  assert (E2 : sb = sa) by congruence.
  assert (E3 : name = Name (CloudTrail_ (cfg sa))) by congruence.
  unfold andThen in Hc.
  destruct (streq name []) eqn:En; cbn [negb] in Hc.
  - unfold ret in Hc.
    assert (E4 : sc = sb) by congruence.
    left; apply streq_eq in En; congruence.
  - unfold clients.IsCloudTrailExist, bind, emit, ret in Hc.
    cbn [cfg world] in Hc.
    assert (Hb : negb (cloudTrailExists env c name) = false) by congruence.
    assert (E4 : cfg sc = cfg sb) by (injection Hc as _ <-; reflexivity).
    right; apply negb_false_iff in Hb; congruence.
Qed.

Lemma action_chosen action s s1 :
  cli_aws.inputMultipleChoiceParameter action addr_Action
    [(lit "1", lit "detect"); (lit "2", lit "block")] true s = (Ok tt, s1) ->
  In (Action (cfg s1)) [lit "detect"; lit "block"; []; Action (cfg s)].
Proof.
  destruct (inputMultipleChoiceParameter_run action addr_Action
              [(lit "1", lit "detect"); (lit "2", lit "block")] true)
    as [msg R].
  rewrite R; clear R.
  destruct (snd (nextRead s)); [discriminate|].
  cbv zeta; cbn [negb andb].
  set (input := strings.TrimSuffix (fst (nextRead s)) LF).
  unfold chosen; cbn [fold_left].
  destruct (streq input []) eqn:E0; intros H;
    assert (E : cfg s1 = cfg (snd (Ok tt, s1))) by reflexivity;
    rewrite <- H in E; cbn [snd answered cfg] in E; rewrite E; clear E H.
  - right; right; left; reflexivity.
  - destruct (streq input (lit "1")), (streq input (lit "2"));
      cbn [store addr_Action Action]; auto 6 using in_eq, in_cons.
Qed.

Ltac keep_step H := apply bind_Ok in H; destruct H as (? & ? & ? & H).

Ltac frame f :=
  repeat match goal with
         | H : ?m ?sa = (_, ?sb) |- _ =>
             lazymatch goal with
             | _ : f (cfg sb) = f (cfg sa) |- _ => fail
             | _ => idtac
             end;
             assert (f (cfg sb) = f (cfg sa))
               by (apply (fun K : keeps f m => K _ _ _ H); keeps_wizard)
         end.

(** X15: in every record that the wizard of [cli/aws] returns without
    error, the cloud has accepted the client built from the access key, the
    secret key and the region of the record; the bucket, the SNS topic and
    the trail of the record are each empty or known to the cloud through
    that client; and the action is ["detect"], ["block"], empty, or what it
    was before the run. *)
Theorem X15_returned_record_is_validated (env : Env) (s s' : State) :
  cli_aws.ReceiveParameters env s = (Ok tt, s') ->
  let i := cfg s' in
  let c := clients.NewAwsClientInit (AccessKey i) (SecretKey i) (Region i) in
  validateCredentials env c = true
  /\ (Bucket i = [] \/ bucketExists env c (Bucket i) = true)
  /\ (SnsTopicArn i = [] \/ snsTopicExists env c (SnsTopicArn i) = true)
  /\ (Name (CloudTrail_ i) = []
      \/ cloudTrailExists env c (Name (CloudTrail_ i)) = true)
  /\ In (Action i) [lit "detect"; lit "block"; []; Action (cfg s)].
Proof.
  intros H; cbv zeta.
  unfold cli_aws.ReceiveParameters in H.
  do 10 keep_step H.
  repeat match goal with u : unit |- _ => destruct u end.
  frame AccessKey; frame SecretKey; frame Region; frame Bucket;
    frame SnsTopicArn; frame (fun i => Name (CloudTrail_ i)); frame Action.
  cbv beta in *.
  match goal with
  | HC : cli_aws.receiveAndValidateCredentials env s = (Ok ?c, ?s1),
    HB : cli_aws.receiveAndValidateBucketName env ?c ?s1 = (Ok tt, ?s2),
    HA : cli_aws.inputMultipleChoiceParameter _ _ _ _ ?s4 = (Ok tt, ?s5),
    HS : cli_aws.receiveAndValidateSNSTopicArn env ?c ?s5 = (Ok tt, ?s6),
    HT : cli_aws.receiveAndValidateCloudTrail env ?c ?s6 = (Ok tt, ?s7)
    |- _ =>
      destruct (@credentials_accepted env s c s1 HC) as [Ec [V _]];
      pose proof (@bucket_checked env c s1 s2 HB) as B;
      pose proof (@topic_checked env c s5 s6 HS) as S;
      pose proof (@trail_checked env c s6 s7 HT) as T;
      pose proof (@action_chosen _ s4 s5 HA) as A;
      assert (EA : AccessKey (cfg s') = AccessKey (cfg s1)) by congruence;
      assert (ES : SecretKey (cfg s') = SecretKey (cfg s1)) by congruence;
      assert (ER : Region (cfg s') = Region (cfg s1)) by congruence;
      assert (EB : Bucket (cfg s') = Bucket (cfg s2)) by congruence;
      assert (ET : SnsTopicArn (cfg s') = SnsTopicArn (cfg s6))
        by congruence;
      assert (EN : Name (CloudTrail_ (cfg s')) = Name (CloudTrail_ (cfg s7)))
        by congruence;
      assert (EAc : Action (cfg s') = Action (cfg s5)) by congruence;
      assert (EA0 : Action (cfg s4) = Action (cfg s)) by congruence
  end.
  rewrite EA, ES, ER, EB, ET, EN, EAc, <- Ec, <- EA0.
  repeat split; assumption.
Qed.

(** X15 at an instance: an operator who names a bucket and a trail. *)
Lemma X15_returned_record_is_validated_witness :
  let s :=
    start emptyInput
      [line (lit "AKIA"); line (lit "secret"); line (lit "us-east-1");
       line (lit "my-bucket"); line []; line []; line (lit "2"); line [];
       line (lit "my-trail"); line (lit "y")] in
  let s' := snd (cli_aws.ReceiveParameters allGood s) in
  cli_aws.ReceiveParameters allGood s = (Ok tt, s')
  /\ validateCredentials allGood
       (clients.NewAwsClientInit (AccessKey (cfg s')) (SecretKey (cfg s'))
          (Region (cfg s'))) = true
  /\ Bucket (cfg s') = lit "my-bucket".
Proof.
  cbv zeta.
  match goal with
  | |- ?run = (Ok tt, ?s') /\ _ =>
      assert (H : run = (Ok tt, s')) by (vm_compute; reflexivity)
  end.
  split; [exact H|].
  split; [|reflexivity].
  exact (proj1 (@X15_returned_record_is_validated allGood _ _ H)).
Defined.

(** ** Credentials are not empty *)

Lemma wellRead_next s :
  Forall wellRead (stdin (world s)) -> wellRead (nextRead s).
Proof.
  unfold nextRead; destruct (stdin (world s)) as [|r rest]; intros H.
  - intros [].
  - inversion H; assumption.
Qed.

Lemma wellRead_tl (l : list (gostring * option error)) :
  Forall wellRead l -> Forall wellRead (tl l).
Proof. destruct l; intros H; [exact H | inversion H; assumption]. Qed.

(** A mandatory text prompt that returns no error has assigned a
    non-empty text, if the read was as [ReadString] delivers it. *)
Lemma mandatory_line q p s s1 :
  cli_aws.inputStringParameter q p false s = (Ok tt, s1) ->
  wellRead (nextRead s) ->
  exists v,
    v <> [] /\ cfg s1 = store p v (cfg s)
    /\ stdin (world s1) = tl (stdin (world s)).
Proof.
  rewrite inputStringParameter_run; cbv zeta.
  destruct (nextRead s) as [d [e|]]; cbn [fst snd outcome negb andb].
  - destruct (streq _ []); discriminate.
  - intros H [l [-> Hl]]; revert H.
    rewrite TrimSuffix_line, (TrimSuffix_no_LF l Hl).
    destruct (streq l []) eqn:E; [discriminate|].
    intros H; exists l.
    assert (Es : s1 = answered q (store p l (cfg s)) s) by congruence.
    rewrite Es; repeat split.
    intros ->; discriminate.
Qed.

(** X16: when the pending reads are as [ReadString] delivers them, a run
    of either wizard that returns no error leaves an access key, a secret
    key and a region that are not empty. *)
Theorem X16_returned_credentials_are_not_empty
  (env : Env) (s s' : State) :
  Forall wellRead (stdin (world s)) ->
  (cli_aws.ReceiveParameters env s = (Ok tt, s') ->
   AccessKey (cfg s') <> [] /\ SecretKey (cfg s') <> []
   /\ Region (cfg s') <> [])
  /\ (pkg_init.ReceiveParameters env s = (Ok tt, s') ->
      AccessKey (cfg s') <> [] /\ SecretKey (cfg s') <> []
      /\ Region (cfg s') <> []).
Proof.
  intros W.
  assert (three : forall sa sb sc,
             cli_aws.inputStringParameter (lit "enter Access Key: ")
               addr_AccessKey false s = (Ok tt, sa) ->
             cli_aws.inputStringParameter (lit "enter Secret Key: ")
               addr_SecretKey false sa = (Ok tt, sb) ->
             cli_aws.inputStringParameter (lit "enter region: ")
               addr_Region false sb = (Ok tt, sc) ->
             AccessKey (cfg sc) <> [] /\ SecretKey (cfg sc) <> []
             /\ Region (cfg sc) <> []).
  { intros sa sb sc Ha Hb Hc.
    destruct (mandatory_line _ _ _ Ha (wellRead_next _ W))
      as (v1 & N1 & C1 & R1).
    assert (Wa : Forall wellRead (stdin (world sa)))
      by (rewrite R1; apply wellRead_tl, W).
    destruct (mandatory_line _ _ _ Hb (wellRead_next _ Wa))
      as (v2 & N2 & C2 & R2).
    assert (Wb : Forall wellRead (stdin (world sb)))
      by (rewrite R2; apply wellRead_tl, Wa).
    destruct (mandatory_line _ _ _ Hc (wellRead_next _ Wb))
      as (v3 & N3 & C3 & _).
    rewrite C3, C2, C1; cbn [store addr_AccessKey addr_SecretKey addr_Region
                                AccessKey SecretKey Region].
    repeat split; assumption. }
  split; intros H.
  - unfold cli_aws.ReceiveParameters in H.
    do 10 keep_step H.
    match goal with
    | HC : cli_aws.receiveAndValidateCredentials env s = _ |- _ =>
        unfold cli_aws.receiveAndValidateCredentials in HC;
        do 3 keep_step HC
    end.
    repeat match goal with u : unit |- _ => destruct u end.
    frame AccessKey; frame SecretKey; frame Region.
    match goal with
    | Ha : cli_aws.inputStringParameter _ addr_AccessKey false s
           = (Ok tt, ?sa),
      Hb : cli_aws.inputStringParameter _ addr_SecretKey false ?sa
           = (Ok tt, ?sb),
      Hc : cli_aws.inputStringParameter _ addr_Region false ?sb
           = (Ok tt, ?sc) |- _ =>
        destruct (three sa sb sc Ha Hb Hc) as (N1 & N2 & N3);
        assert (EA : AccessKey (cfg s') = AccessKey (cfg sc)) by congruence;
        assert (ES : SecretKey (cfg s') = SecretKey (cfg sc)) by congruence;
        assert (ER : Region (cfg s') = Region (cfg sc)) by congruence
    end.
    rewrite EA, ES, ER; repeat split; assumption.
  - unfold pkg_init.ReceiveParameters in H.
    rewrite pkg_init_inputStringParameter in H.
    do 9 keep_step H.
    repeat match goal with u : unit |- _ => destruct u end.
    frame AccessKey; frame SecretKey; frame Region.
    match goal with
    | Ha : cli_aws.inputStringParameter _ addr_AccessKey false s
           = (Ok tt, ?sa),
      Hb : cli_aws.inputStringParameter _ addr_SecretKey false ?sa
           = (Ok tt, ?sb),
      Hc : cli_aws.inputStringParameter _ addr_Region false ?sb
           = (Ok tt, ?sc) |- _ =>
        destruct (three sa sb sc Ha Hb Hc) as (N1 & N2 & N3);
        assert (EA : AccessKey (cfg s') = AccessKey (cfg sc)) by congruence;
        assert (ES : SecretKey (cfg s') = SecretKey (cfg sc)) by congruence;
        assert (ER : Region (cfg s') = Region (cfg sc)) by congruence
    end.
    rewrite EA, ES, ER; repeat split; assumption.
Qed.

Lemma wellRead_line l : ~ In 10%N l -> wellRead (line l).
Proof. intros H; exists l; split; [reflexivity | exact H]. Qed.

(** X16 at an instance: the earlier wizard, keyless. *)
Lemma X16_returned_credentials_are_not_empty_witness :
  let s :=
    start emptyInput
      [line (lit "AKIA"); line (lit "secret"); line (lit "us-east-1");
       line []; line []; line []; line (lit "y")] in
  let s' := snd (pkg_init.ReceiveParameters allGood s) in
  Forall wellRead (stdin (world s))
  /\ pkg_init.ReceiveParameters allGood s = (Ok tt, s')
  /\ AccessKey (cfg s') <> [] /\ SecretKey (cfg s') <> []
  /\ Region (cfg s') <> [].
Proof.
  cbv zeta.
  match goal with
  | |- Forall wellRead (stdin (world ?s)) /\ ?run = (Ok tt, ?s') /\ _ =>
      assert (W : Forall wellRead (stdin (world s)))
        by (repeat constructor; apply wellRead_line; cbn; intros H;
            repeat destruct H as [H|H]; try discriminate; exact H);
      assert (H : run = (Ok tt, s')) by (vm_compute; reflexivity)
  end.
  split; [exact W|]; split; [exact H|].
  exact (proj2 (@X16_returned_credentials_are_not_empty allGood _ _ W) H).
Defined.

(** ** The dialogue with the operator *)

Lemma prompts_app a b : prompts (a ++ b) = prompts a ++ prompts b.
Proof. apply flat_map_app. Qed.

Lemma firstn_within {A : Type} k (l l' : list A) :
  exists k', firstn k l = firstn k' (l ++ l').
Proof.
  exists (Nat.min k (length l)).
  rewrite firstn_app.
  replace (Nat.min k (length l) - length l) with 0 by lia.
  cbn [firstn]; rewrite app_nil_r.
  destruct (Nat.le_ge_cases k (length l)) as [Hk | Hk].
  - rewrite Nat.min_l by exact Hk; reflexivity.
  - rewrite Nat.min_r, !firstn_all2 by lia; reflexivity.
Qed.

(** A step that prints no prompt and reads nothing. *)
Lemma dialogue_silent {A : Type} (m : M A) :
  (forall s r s', m s = (r, s') ->
     exists evs, trace (world s') = trace (world s) ++ evs
                 /\ prompts evs = []
                 /\ stdin (world s') = stdin (world s)) ->
  dialogue true [] m.
Proof.
  intros Hm s r s' H.
  destruct (Hm _ _ _ H) as (evs & T & P & R).
  exists evs; rewrite P; cbn [length skipn].
  split; [exact T|]; split; [exact R|].
  split; [exists 0; reflexivity | intros _ a _; reflexivity].
Qed.

Lemma dialogue_ret {A : Type} (a : A) : dialogue true [] (ret a).
Proof.
  apply dialogue_silent; intros s r s' H; inversion H; subst.
  exists []; rewrite app_nil_r; repeat split.
Qed.

Lemma dialogue_fail {A : Type} e : dialogue true [] (@fail A e).
Proof.
  apply dialogue_silent; intros s r s' H; inversion H; subst.
  exists []; rewrite app_nil_r; repeat split.
Qed.

Lemma dialogue_return_ err : dialogue true [] (return_ err).
Proof. destruct err; [apply dialogue_fail | apply dialogue_ret]. Qed.

Lemma dialogue_assign {T : Type} (p : ptr T) v : dialogue true [] (assign p v).
Proof.
  apply dialogue_silent; intros s r s' H; inversion H; subst.
  exists []; cbn [world]; rewrite app_nil_r; repeat split.
Qed.

Lemma dialogue_deref {T : Type} (p : ptr T) : dialogue true [] (deref p).
Proof.
  apply dialogue_silent; intros s r s' H; inversion H; subst.
  exists []; rewrite app_nil_r; repeat split.
Qed.

Lemma dialogue_emit ev : prompts [ev] = [] -> dialogue true [] (emit ev).
Proof.
  intros Hev; apply dialogue_silent; intros s r s' H; inversion H; subst.
  exists [ev]; cbn [world trace stdin]; repeat split; exact Hev.
Qed.

Lemma dialogue_bind {A B : Type} b l1 l2 (m : M A) (f : A -> M B) :
  dialogue true l1 m -> (forall a, dialogue b l2 (f a)) ->
  dialogue b (l1 ++ l2) (bind m f).
Proof.
  intros Hm Hf s r s' H.
  destruct (bind_inv _ _ _ H) as [(e & H1 & ->) | (a & s1 & H1 & H2)].
  - destruct (Hm _ _ _ H1) as (evs & T & R & [k P] & _).
    exists evs; split; [exact T|]; split; [exact R|]; split.
    + rewrite P; apply firstn_within.
    + intros _ a Ha; discriminate.
  - destruct (Hm _ _ _ H1) as (evs1 & T1 & R1 & _ & P1).
    specialize (P1 eq_refl a eq_refl).
    destruct (Hf a _ _ _ H2) as (evs2 & T2 & R2 & [k P2] & S2).
    exists (evs1 ++ evs2).
    rewrite prompts_app, length_app, P1.
    split; [rewrite T2, T1, app_assoc; reflexivity|].
    split.
    + rewrite R2, R1, P1, skipn_skipn, Nat.add_comm; reflexivity.
    + split.
      * exists (length l1 + k).
        rewrite P2, firstn_app_2; reflexivity.
      * intros Hb a' Ha'; rewrite (S2 Hb a' Ha'); reflexivity.
Qed.

(** The same, after a step that is silent. *)
Lemma dialogue_then {A B : Type} b l (m : M A) (f : A -> M B) :
  dialogue true [] m -> (forall a, dialogue b l (f a)) ->
  dialogue b l (bind m f).
Proof. intros Hm Hf; exact (@dialogue_bind _ _ b [] l m f Hm Hf). Qed.

Lemma dialogue_for_ {A : Type} (l : list A) body :
  (forall x, dialogue true [] (body x)) -> dialogue true [] (for_ l body).
Proof.
  intros Hb; induction l as [|x l IH]; simpl.
  - apply dialogue_ret.
  - apply dialogue_then; [apply Hb | intros _; exact IH].
Qed.

(** A prompt: a question printed, an answer read, and a silent
    treatment of the answer. *)
Lemma dialogue_ask q (k : gostring * option error -> M unit) :
  (forall x, dialogue true [] (k x)) ->
  dialogue true [q] (fmt.Print q ;; x <- ReadString ;; k x).
Proof.
  intros Hk s r s' H.
  unfold bind at 1 in H; unfold fmt.Print, emit in H.
  unfold bind at 1 in H; unfold ReadString in H.
  cbn [cfg world stdin trace] in H.
  assert (G : forall x,
             k x (mkState (cfg s)
                    (mkWorld (tl (stdin (world s)))
                       (trace (world s) ++ [Printed q]))) = (r, s') ->
             exists evs,
               trace (world s') = trace (world s) ++ evs
               /\ stdin (world s')
                  = skipn (length (prompts evs)) (stdin (world s))
               /\ (exists n, prompts evs = firstn n [q])
               /\ (true = true -> forall a, r = Ok a -> prompts evs = [q])).
  { intros x Hx.
    destruct (Hk x _ _ _ Hx) as (evs & T & R & [n P] & _).
    rewrite firstn_nil in P; rewrite P in R.
    cbn [cfg world stdin trace length skipn] in T, R.
    exists (Printed q :: evs).
    cbn [prompts flat_map app]; change (flat_map _ evs) with (prompts evs).
    rewrite P; cbn [length].
    split; [rewrite T, <- app_assoc; reflexivity|].
    split; [rewrite R; destruct (stdin (world s)); reflexivity|].
    split; [exists 1; reflexivity | intros _ a _; reflexivity]. }
  destruct (stdin (world s)) as [|x rest]; eapply G; exact H.
Qed.

Lemma dialogue_loose {A : Type} l (m : M A) :
  dialogue true l m -> dialogue false l m.
Proof.
  intros Hm s r s' H.
  destruct (Hm _ _ _ H) as (evs & T & R & P & _).
  exists evs; repeat split; try assumption; discriminate.
Qed.

Lemma dialogue_within {A : Type} b l l' (m : M A) :
  dialogue b l m -> dialogue false (l ++ l') m.
Proof.
  intros Hm s r s' H.
  destruct (Hm _ _ _ H) as (evs & T & R & [k P] & _).
  exists evs; split; [exact T|]; split; [exact R|]; split.
  - rewrite P; apply firstn_within.
  - discriminate.
Qed.

Ltac silent_step :=
  first
    [ apply dialogue_ret
    | apply dialogue_fail
    | apply dialogue_return_
    | apply dialogue_assign
    | apply dialogue_deref
    | apply dialogue_emit; reflexivity
    | apply dialogue_then; [|intros ?]
    | apply dialogue_for_; intros ?
    | match goal with
      | |- dialogue _ _ (if ?b then _ else _) => destruct b
      | |- dialogue _ _ (match ?x with _ => _ end) => destruct x
      end ].

Lemma dialogue_inputStringParameter q p em :
  dialogue true [q] (cli_aws.inputStringParameter q p em).
Proof.
  unfold cli_aws.inputStringParameter.
  apply dialogue_ask; intros [input err]; cbv zeta; repeat silent_step.
Qed.

Lemma dialogue_inputStringArrayParameter q p em :
  dialogue true [q] (cli_aws.inputStringArrayParameter q p em).
Proof.
  unfold cli_aws.inputStringArrayParameter.
  apply dialogue_ask; intros [input err]; cbv zeta; repeat silent_step.
Qed.

Lemma dialogue_inputYesNoParameter q p em :
  dialogue true [q] (cli_aws.inputYesNoParameter q p em).
Proof.
  unfold cli_aws.inputYesNoParameter.
  apply dialogue_ask; intros [input err]; cbv zeta; repeat silent_step.
Qed.

Lemma dialogue_inputMultipleChoiceParameter action p m em :
  dialogue true [choiceText action m em]
    (cli_aws.inputMultipleChoiceParameter action p m em).
Proof.
  unfold cli_aws.inputMultipleChoiceParameter, choiceText; cbv zeta.
  apply dialogue_ask; intros [input err]; repeat silent_step.
Qed.

Lemma dialogue_finally {A B : Type} b l (m : M A) (f : A -> M B) :
  dialogue b l m -> (forall a, dialogue true [] (f a)) ->
  dialogue false l (bind m f).
Proof.
  intros Hm Hf s r s' H.
  destruct (bind_inv _ _ _ H) as [(e & H1 & ->) | (a & s1 & H1 & H2)].
  - destruct (Hm _ _ _ H1) as (evs & T & R & P & _).
    exists evs; repeat split; try assumption; discriminate.
  - destruct (Hm _ _ _ H1) as (evs1 & T1 & R1 & P1 & _).
    destruct (Hf a _ _ _ H2) as (evs2 & T2 & R2 & [k P2] & _).
    rewrite firstn_nil in P2; rewrite P2 in R2; cbn [length skipn] in R2.
    exists (evs1 ++ evs2).
    rewrite prompts_app, P2, app_nil_r.
    split; [rewrite T2, T1, app_assoc; reflexivity|].
    split; [rewrite R2; exact R1|].
    split; [exact P1 | discriminate].
Qed.

Ltac ask_step :=
  match goal with
  | |- dialogue ?b (?q :: ?l) (bind ?m ?f) =>
      apply (@dialogue_bind _ _ b [q] l m f);
      [ first [ apply dialogue_inputStringParameter
              | apply dialogue_inputStringArrayParameter
              | apply dialogue_inputYesNoParameter
              | apply dialogue_inputMultipleChoiceParameter ]
      | intros ? ]
  end.

Lemma dialogue_receiveAndValidateCredentials env :
  dialogue true
    [lit "enter Access Key: "; lit "enter Secret Key: "; lit "enter region: "]
    (cli_aws.receiveAndValidateCredentials env).
Proof.
  unfold cli_aws.receiveAndValidateCredentials, clients.ValidateCredentials.
  cbv zeta.
  do 3 ask_step; repeat silent_step.
Qed.

Lemma dialogue_receiveAndValidateBucketName env c :
  dialogue true
    [lit "enter default bucket (you can leave empty and a bucket with name functionclarity will be created): "]
    (cli_aws.receiveAndValidateBucketName env c).
Proof.
  unfold cli_aws.receiveAndValidateBucketName, andThen,
    clients.IsBucketExist.
  ask_step; repeat silent_step.
Qed.

Lemma dialogue_receiveAndValidateSNSTopicArn env c :
  dialogue true
    [lit "enter SNS arn if you would like to be notified when signature verification fails, otherwise press enter: "]
    (cli_aws.receiveAndValidateSNSTopicArn env c).
Proof.
  unfold cli_aws.receiveAndValidateSNSTopicArn, andThen,
    clients.IsSnsTopicExist.
  ask_step; repeat silent_step.
Qed.

Lemma dialogue_receiveAndValidateCloudTrail env c :
  dialogue true
    [lit "is there existing trail in CloudTrail (in the region selected above) which you would like to use? (if no, please press enter): "]
    (cli_aws.receiveAndValidateCloudTrail env c).
Proof.
  unfold cli_aws.receiveAndValidateCloudTrail, andThen,
    clients.IsCloudTrailExist.
  ask_step; repeat silent_step.
Qed.

Lemma dialogue_inputKeyPair :
  dialogue false
    [lit "enter path to custom public key for code signing? (if you want us to generate key pair, please press enter): ";
     lit "enter path to custom private key for code signing: "]
    cli_aws.inputKeyPair.
Proof.
  unfold cli_aws.inputKeyPair.
  ask_step.
  apply dialogue_then; [apply dialogue_deref | intros publicKey].
  destruct (negb (streq publicKey [])).
  - apply dialogue_loose, dialogue_inputStringParameter.
  - apply (@dialogue_within _ true [] _ (ret tt)), dialogue_ret.
Qed.

Lemma dialogue_digestParameters env :
  dialogue true [] (cli_aws.digestParameters env).
Proof.
  unfold cli_aws.digestParameters, generate.GenerateKeyPairCmd.
  repeat silent_step.
Qed.

Lemma dialogue_keys (digest : M unit) (isKeyless : bool) :
  dialogue true [] digest ->
  dialogue false
    [lit "enter path to custom public key for code signing? (if you want us to generate key pair, please press enter): ";
     lit "enter path to custom private key for code signing: "]
    ((if negb isKeyless then cli_aws.inputKeyPair else ret tt) ;; digest).
Proof.
  intros Hd.
  apply dialogue_finally with (b := false); [|intros _; exact Hd].
  destruct (negb isKeyless).
  - apply dialogue_inputKeyPair.
  - apply (@dialogue_within _ true [] _ (ret tt)), dialogue_ret.
Qed.

(** The dialogue of the wizard of [cli/aws]. *)
Lemma wizard_dialogue env :
  dialogue false
    (wizardPrompts
       (choiceText (lit "post verification action")
          [(lit "1", lit "detect"); (lit "2", lit "block")] true))
    (cli_aws.ReceiveParameters env).
Proof.
  unfold cli_aws.ReceiveParameters, wizardPrompts.
  match goal with
  | |- dialogue ?b (?p1 :: ?p2 :: ?p3 :: ?l) (bind ?m ?f) =>
      apply (@dialogue_bind _ _ b [p1; p2; p3] l m f);
      [apply dialogue_receiveAndValidateCredentials | intros awsClient]
  end.
  match goal with
  | |- dialogue ?b (?q :: ?l) (bind ?m ?f) =>
      apply (@dialogue_bind _ _ b [q] l m f);
      [apply dialogue_receiveAndValidateBucketName | intros _]
  end.
  do 3 ask_step.
  match goal with
  | |- dialogue ?b (?q :: ?l) (bind ?m ?f) =>
      apply (@dialogue_bind _ _ b [q] l m f);
      [apply dialogue_receiveAndValidateSNSTopicArn | intros _]
  end.
  match goal with
  | |- dialogue ?b (?q :: ?l) (bind ?m ?f) =>
      apply (@dialogue_bind _ _ b [q] l m f);
      [apply dialogue_receiveAndValidateCloudTrail | intros _]
  end.
  ask_step.
  apply dialogue_then; [apply dialogue_deref | intros isKeyless].
  apply dialogue_keys, dialogue_digestParameters.
Qed.

(** The dialogue of the earlier wizard of [pkg/init]. *)
Lemma earlier_wizard_dialogue env :
  dialogue false earlierPrompts (pkg_init.ReceiveParameters env).
Proof.
  unfold pkg_init.ReceiveParameters, earlierPrompts.
  rewrite pkg_init_inputStringParameter, pkg_init_inputYesNoParameter,
    pkg_init_inputKeyPair.
  do 7 ask_step.
  apply dialogue_then; [apply dialogue_deref | intros isKeyless].
  apply dialogue_keys.
  unfold pkg_init.digestParameters, generate.GenerateKeyPairCmd.
  repeat silent_step.
Qed.

(** X17: both wizards read exactly one answer for each prompt they print:
    however a run ends, the reads still pending after it are those that
    were pending before it, less as many as prompts were printed. *)
Theorem X17_one_answer_read_per_prompt (env : Env) (s : State) :
  let run := cli_aws.ReceiveParameters env s in
  let run' := pkg_init.ReceiveParameters env s in
  stdin (world (snd run))
  = skipn (length (prompts (since s (snd run)))) (stdin (world s))
  /\ stdin (world (snd run'))
     = skipn (length (prompts (since s (snd run')))) (stdin (world s)).
Proof.
  cbv zeta; split.
  - destruct (@wizard_dialogue env s _ _ (surjective_pairing _))
      as (evs & T & R & _).
    rewrite (since_app s _ _ T); exact R.
  - destruct (@earlier_wizard_dialogue env s _ _ (surjective_pairing _))
      as (evs & T & R & _).
    rewrite (since_app s _ _ T); exact R.
Qed.


(** ** The errors of the wizard *)

Lemma readErrors_tl (l : list (gostring * option error)) e :
  In e (readErrors (tl l)) -> In e (readErrors l).
Proof.
  destruct l as [|r l]; [exact (fun H => H)|].
  unfold readErrors; cbn [tl flat_map].
  intros [H | H]; [left; exact H | right; apply in_or_app; right; exact H].
Qed.

Lemma readErrors_skipn n (l : list (gostring * option error)) e :
  In e (readErrors (skipn n l)) -> In e (readErrors l).
Proof.
  revert l; induction n as [|n IH]; intros l; [exact (fun H => H)|].
  destruct l as [|r l]; [exact (fun H => H)|].
  cbn [skipn]; intros H; apply (@readErrors_tl (r :: l)); cbn [tl].
  apply IH, H.
Qed.

Lemma nextRead_error s e :
  snd (nextRead s) = Some e -> In e (readErrors (stdin (world s))).
Proof.
  unfold nextRead, readErrors.
  destruct (stdin (world s)) as [|[d err] rest]; cbn [snd flat_map].
  - intros H; left; congruence.
  - intros ->; right; left; reflexivity.
Qed.

Lemma raises_quiet {A : Type} env (m : M A) :
  (forall s r s', m s = (r, s') ->
     stdin (world s') = stdin (world s)
     /\ forall e, r = Err e -> ownError env e) ->
  raises env m.
Proof.
  intros Hm s r s' H; destruct (Hm _ _ _ H) as [R E].
  split; [exists 0; exact R | intros e He; left; exact (E e He)].
Qed.

Lemma raises_ret {A : Type} env (a : A) : raises env (ret a).
Proof.
  apply raises_quiet; intros s r s' H; inversion H; subst.
  split; [reflexivity | intros e He; discriminate].
Qed.

Lemma raises_fail {A : Type} env e : ownError env e -> raises env (@fail A e).
Proof.
  intros Own; apply raises_quiet; intros s r s' H; inversion H; subst.
  split; [reflexivity | intros e' He; congruence].
Qed.

Lemma raises_assign {T : Type} env (p : ptr T) v : raises env (assign p v).
Proof.
  apply raises_quiet; intros s r s' H; inversion H; subst.
  split; [reflexivity | intros e He; discriminate].
Qed.

Lemma raises_deref {T : Type} env (p : ptr T) : raises env (deref p).
Proof.
  apply raises_quiet; intros s r s' H; inversion H; subst.
  split; [reflexivity | intros e He; discriminate].
Qed.

Lemma raises_emit env ev : raises env (emit ev).
Proof.
  apply raises_quiet; intros s r s' H; inversion H; subst.
  split; [reflexivity | intros e He; discriminate].
Qed.

Lemma raises_generator env : raises env (return_ (generateKeyPair env)).
Proof.
  apply raises_quiet; intros s r s'.
  destruct (generateKeyPair env) as [e0|] eqn:G; intros H; inversion H; subst.
  - split; [reflexivity|].
    intros e He; right; right; congruence.
  - split; [reflexivity | intros e He; discriminate].
Qed.

Lemma raises_bind {A B : Type} env (m : M A) (f : A -> M B) :
  raises env m -> (forall a, raises env (f a)) -> raises env (bind m f).
Proof.
  intros Hm Hf s r s' H.
  destruct (bind_inv _ _ _ H) as [(e & H1 & ->) | (a & s1 & H1 & H2)].
  - destruct (Hm _ _ _ H1) as [R E].
    split; [exact R | intros e' He'; apply E; congruence].
  - destruct (Hm _ _ _ H1) as [[n1 R1] _].
    destruct (Hf a _ _ _ H2) as [[n2 R2] E2].
    split.
    + exists (n2 + n1); rewrite R2, R1, skipn_skipn; reflexivity.
    + intros e He; destruct (E2 e He) as [Own | Hin]; [left; exact Own|].
      right; rewrite R1 in Hin; exact (@readErrors_skipn _ _ _ Hin).
Qed.

(** A prompt in its equational form: it returns the missing-parameter
    error or what the read returned, after one read. *)
Lemma raises_answered env (m : M unit) :
  (forall s, exists q i r,
     m s = (r, answered q i s)
     /\ (r = Err compulsory \/ r = outcome (snd (nextRead s)))) ->
  raises env m.
Proof.
  intros Hm s r s' H.
  destruct (Hm s) as (q & i & r0 & E & Hr).
  rewrite E in H; injection H as <- <-.
  split.
  - exists 1; unfold answered; cbn [world stdin].
    destruct (stdin (world s)); reflexivity.
  - intros e He; destruct Hr as [-> | ->].
    + left; left; congruence.
    + right; apply nextRead_error.
      destruct (snd (nextRead s)); cbn [outcome] in He; congruence.
Qed.

Lemma raises_inputStringParameter env q p em :
  raises env (cli_aws.inputStringParameter q p em).
Proof.
  apply raises_answered; intros s.
  rewrite inputStringParameter_run; cbv zeta.
  destruct (negb em && _); do 3 eexists; split;
    try reflexivity; [left | right]; reflexivity.
Qed.

Lemma raises_inputYesNoParameter env q p em :
  raises env (cli_aws.inputYesNoParameter q p em).
Proof.
  apply raises_answered; intros s.
  rewrite inputYesNoParameter_run; cbv zeta.
  destruct (negb em && _); do 3 eexists; split;
    try reflexivity; [left | right]; reflexivity.
Qed.

Lemma raises_inputStringArrayParameter env q p em :
  lawful p -> raises env (cli_aws.inputStringArrayParameter q p em).
Proof.
  intros Hp; apply raises_answered; intros s.
  rewrite (inputStringArrayParameter_run _ _ _ Hp); cbv zeta.
  destruct (negb em && _); do 3 eexists; split;
    try reflexivity; [left | right]; reflexivity.
Qed.

Lemma raises_inputMultipleChoiceParameter env action p m em :
  raises env (cli_aws.inputMultipleChoiceParameter action p m em).
Proof.
  destruct (inputMultipleChoiceParameter_run action p m em) as [msg R].
  apply raises_answered; intros s; rewrite R; cbv zeta.
  destruct (snd (nextRead s)) as [e|] eqn:E.
  - do 3 eexists; split; [reflexivity | right; reflexivity].
  - destruct (negb em && _);
      [do 3 eexists; split; [reflexivity | left; reflexivity]|].
    destruct (streq _ []); [destruct (negb em)|];
      do 3 eexists; split; try reflexivity;
      first [left; reflexivity | right; reflexivity].
Qed.

Lemma own_validation env msg :
  strings.HasPrefix msg (lit "validation error: ") = true ->
  ownError env (Errorf msg).
Proof. intros H; right; left; exists msg; split; [reflexivity | exact H]. Qed.

Ltac raises_step env :=
  first
    [ apply raises_ret
    | apply raises_fail;
      first [left; reflexivity | apply own_validation; reflexivity]
    | apply raises_generator
    | apply raises_assign
    | apply raises_deref
    | apply raises_emit
    | apply raises_inputStringParameter
    | apply raises_inputYesNoParameter
    | apply raises_inputMultipleChoiceParameter
    | apply raises_inputStringArrayParameter; split; intros; reflexivity
    | apply raises_bind; [|intros ?]
    | match goal with
      | |- raises _ (if ?b then _ else _) => destruct b
      end ].

Lemma raises_wizard env : raises env (cli_aws.ReceiveParameters env).
Proof.
  unfold cli_aws.ReceiveParameters, cli_aws.receiveAndValidateCredentials,
    cli_aws.receiveAndValidateBucketName,
    cli_aws.receiveAndValidateSNSTopicArn,
    cli_aws.receiveAndValidateCloudTrail, cli_aws.inputKeyPair,
    cli_aws.digestParameters, generate.GenerateKeyPairCmd, andThen,
    clients.ValidateCredentials, clients.IsBucketExist,
    clients.IsSnsTopicExist, clients.IsCloudTrailExist.
  cbv zeta.
  repeat raises_step env.
Qed.

Lemma raises_earlier_wizard env : raises env (pkg_init.ReceiveParameters env).
Proof.
  unfold pkg_init.ReceiveParameters, pkg_init.digestParameters,
    generate.GenerateKeyPairCmd.
  rewrite pkg_init_inputStringParameter, pkg_init_inputYesNoParameter,
    pkg_init_inputKeyPair.
  unfold cli_aws.inputKeyPair.
  repeat raises_step env.
Qed.

(** X19: an error returned by either wizard is the missing-parameter
    error, a validation error, the error of the key generator, or an error
    that the reader handed over: the error of one of the pending reads or
    the end of the input. *)
Theorem X19_errors_of_the_wizard (env : Env) (s : State) (e : error) :
  (fst (cli_aws.ReceiveParameters env s) = Err e ->
   ownError env e \/ In e (readErrors (stdin (world s))))
  /\ (fst (pkg_init.ReceiveParameters env s) = Err e ->
      ownError env e \/ In e (readErrors (stdin (world s)))).
Proof.
  split; intros H.
  - destruct (@raises_wizard env s _ _ (surjective_pairing _)) as [_ E].
    exact (E e H).
  - destruct (@raises_earlier_wizard env s _ _ (surjective_pairing _))
      as [_ E].
    exact (E e H).
Qed.

(** X19 at an instance: the input ends while the secret key is typed. *)
Lemma X19_errors_of_the_wizard_witness :
  let s :=
    start emptyInput [line (lit "AKIA"); broken (lit "secr") io_EOF] in
  fst (cli_aws.ReceiveParameters allGood s) = Err io_EOF
  /\ (ownError allGood io_EOF \/ In io_EOF (readErrors (stdin (world s)))).
Proof.
  cbv zeta.
  match goal with
  | |- ?r = Err io_EOF /\ _ =>
      assert (H : r = Err io_EOF) by (vm_compute; reflexivity)
  end.
  split; [exact H|].
  exact (proj1 (@X19_errors_of_the_wizard allGood _ io_EOF) H).
Defined.
